(** * go-blog-fetch: a shallow embedding of [main.go]

    The program scrapes a blog listing page, stores the articles it finds in
    an SQLite table and posts up to three unread article URLs to a webhook,
    marking them read.  This file embeds the program as functions in a small
    state-and-exit monad over an explicit world (the table, the trace of
    observable events, the counters of the calls made so far) and an
    environment of oracles for everything the program does not control (the
    clock, the two HTTP endpoints, storage failures).

    Library behaviour the program relies on ([time.Parse], [Time.Format],
    [strings.Replace], the [sql] package, slice expressions) is modelled from
    the Go standard library as it applies to the constants of [main.go]. *)

From Stdlib Require Import List String Ascii Bool Arith PeanoNat ZArith Lia ZifyNat.
From Stdlib Require Import Permutation Sorted.
Import ListNotations.
Local Open Scope string_scope.
Local Open Scope list_scope.
Local Open Scope nat_scope.

(** ** Go's [time] package, at the layouts used by [fetchAllArticles] *)

Module GoTime.

(** [isDigit]: the byte is between '0' and '9'. *)
Definition isDigitChar (c : ascii) : bool :=
  (48 <=? nat_of_ascii c) && (nat_of_ascii c <=? 57).

Definition digitVal (c : ascii) : nat := nat_of_ascii c - 48.

(** [leadingInt] followed by [atoi]'s test that nothing remains: every byte
    is a digit.  [atoi]'s sign branch is not reached from [stdLongYear],
    which has already checked that the first byte is a digit. *)
Fixpoint atoi_from (acc : nat) (s : string) : option nat :=
  match s with
  | EmptyString => Some acc
  | String c rest =>
      if isDigitChar c then atoi_from (acc * 10 + digitVal c) rest else None
  end.

Definition atoi (s : string) : option nat := atoi_from 0 s.

(** [case stdLongYear]: at least four bytes, the first a digit, and the
    first four an integer. *)
Definition getyear (value : string) : option (nat * string) :=
  match value with
  | String a (String b (String c (String d rest))) =>
      if isDigitChar a then
        match atoi (String a (String b (String c (String d EmptyString)))) with
        | Some y => Some (y, rest)
        | None => None
        end
      else None
  | _ => None
  end.

(** [getnum(s, fixed)]: one or two digits; exactly two when [fixed]. *)
Definition getnum (s : string) (fixed : bool) : option (nat * string) :=
  match s with
  | String c0 rest =>
      if isDigitChar c0 then
        match rest with
        | String c1 rest' =>
            if isDigitChar c1 then Some (digitVal c0 * 10 + digitVal c1, rest')
            else if fixed then None else Some (digitVal c0, rest)
        | EmptyString => if fixed then None else Some (digitVal c0, rest)
        end
      else None
  | EmptyString => None
  end.

(** [skip(value, prefix)] for a prefix of one byte that is not a space. *)
Definition skip1 (value : string) (p : ascii) : option string :=
  match value with
  | String c rest => if Ascii.eqb c p then Some rest else None
  | EmptyString => None
  end.

Definition isLeap (year : nat) : bool :=
  (year mod 4 =? 0) && (negb (year mod 100 =? 0) || (year mod 400 =? 0)).

Definition daysIn (m year : nat) : nat :=
  match m with
  | 2 => if isLeap year then 29 else 28
  | 4 | 6 | 9 | 11 => 30
  | _ => 31
  end.

(** A calendar date as [time.Parse] returns it for a date-only layout. *)
Record Time := mkTime { Year : nat; Month : nat; Day : nat }.

(** [time.Parse("2006.01.02", value)]: year, '.', two-digit month in
    1..12, '.', two-digit day, nothing after it, and the day within the
    month. *)
Definition Parse_2006_01_02 (value : string) : option Time :=
  match getyear value with
  | None => None
  | Some (year, value) =>
      match skip1 value "."%char with
      | None => None
      | Some value =>
          match getnum value true with
          | None => None
          | Some (month, value) =>
              if (month =? 0) || (12 <? month) then None
              else
                match skip1 value "."%char with
                | None => None
                | Some value =>
                    match getnum value true with
                    | None => None
                    | Some (day, value) =>
                        match value with
                        | String _ _ => None (* extra text *)
                        | EmptyString =>
                            if (day <? 1) || (daysIn month year <? day)
                            then None (* day out of range *)
                            else Some (mkTime year month day)
                        end
                    end
                end
          end
      end
  end.

Definition digitChar (n : nat) : ascii := ascii_of_nat (48 + n).

(** [appendInt(b, x, width)] for a non-negative [x] below ten to the
    [width], at widths 2 and 4. *)
Definition appendInt2 (x : nat) : string :=
  String (digitChar (x / 10 mod 10)) (String (digitChar (x mod 10)) EmptyString).

Definition appendInt4 (x : nat) : string :=
  String (digitChar (x / 1000 mod 10))
    (String (digitChar (x / 100 mod 10)) (appendInt2 x)).

(** [t.Format("2006-01-02")]. *)
Definition Format_2006_01_02 (t : Time) : string :=
  (appendInt4 (Year t) ++ "-" ++ appendInt2 (Month t) ++ "-" ++ appendInt2 (Day t))%string.

(** The text a listing page shows for a date, [YYYY.MM.DD]. *)
Definition dotted (y m d : nat) : string :=
  (appendInt4 y ++ "." ++ appendInt2 m ++ "." ++ appendInt2 d)%string.

Definition dashed (y m d : nat) : string :=
  (appendInt4 y ++ "-" ++ appendInt2 m ++ "-" ++ appendInt2 d)%string.

(** The number with decimal digits [a b c e], and the ten bytes of a text
    [abce.fg.hi]. *)
Definition digits4 (a b c e : nat) : nat := ((a * 10 + b) * 10 + c) * 10 + e.

Definition text10 (a b c e f g h i : ascii) : string :=
  String a (String b (String c (String e (String "."
    (String f (String g (String "." (String h (String i EmptyString))))))))).

(** A date of the calendar with a four-digit year. *)
Definition validDate (y m d : nat) : Prop :=
  y < 10 * 1000 /\ 1 <= m <= 12 /\ 1 <= d <= daysIn m y.

End GoTime.

(** ** Go's [strings] package *)

Module GoStrings.

Fixpoint hasPrefix (p s : string) : bool :=
  match p, s with
  | EmptyString, _ => true
  | String a p', String b s' => Ascii.eqb a b && hasPrefix p' s'
  | String _ _, EmptyString => false
  end.

Fixpoint dropn (n : nat) (s : string) : string :=
  match n, s with
  | S n', String _ s' => dropn n' s'
  | _, _ => s
  end.

(** [strings.Contains(s, substr)]. *)
Fixpoint Contains (s substr : string) : bool :=
  hasPrefix substr s ||
  match s with
  | EmptyString => false
  | String _ s' => Contains s' substr
  end.

(** [strings.Replace(s, old, "", 1)] for a non-empty [old]: the first
    occurrence of [old] is removed. *)
Fixpoint RemoveFirst (s old : string) : string :=
  if hasPrefix old s then dropn (String.length old) s
  else
    match s with
    | EmptyString => EmptyString
    | String c s' => String c (RemoveFirst s' old)
    end.

End GoStrings.

(** ** Data model *)

(** [type article struct], one row of the table [articles]. *)
Record article := mkArticle {
  title : string;
  url : string;
  date : string;
  read : bool
}.

Inductive Weekday :=
  Sunday | Monday | Tuesday | Wednesday | Thursday | Friday | Saturday.

Definition Weekday_eqb (a b : Weekday) : bool :=
  match a, b with
  | Sunday, Sunday | Monday, Monday | Tuesday, Tuesday | Wednesday, Wednesday
  | Thursday, Thursday | Friday, Friday | Saturday, Saturday => true
  | _, _ => false
  end.

(** Go's [error]: [None] is [nil]. *)
Definition error := option string.

Definition isErr (e : error) : bool :=
  match e with Some _ => true | None => false end.

(** What the three selector queries of [fetchAllArticles] return on one
    [li] element: the [href] and [title] attributes of its first [a] (the
    empty string when absent) and the text of its [.date] descendants. *)
Record ListItem := mkListItem {
  li_href : string;
  li_title : string;
  li_date : string
}.

(** A parsed listing page: the [li] descendants of each [.article-list]
    element, in document order. *)
Definition Document := list (list ListItem).

(** The outcome of [http.Get(baseURL)] followed by
    [goquery.NewDocumentFromReader]. *)
Inductive GetResult :=
| GetError (e : string)
| GetResponse (status : nat) (body : option Document).

(** The outcome of one [http.Post] to the webhook. *)
Inductive PostResult :=
| PostError (e : string)
| PostResponse (status : nat).

Definition StatusOK : nat := 200.

(** Everything the run depends on and does not control. *)
Record Env := mkEnv {
  now_weekday : Weekday;              (* time.Now().Weekday() *)
  baseURL : string;                   (* url.txt, trimmed by init *)
  http_Get : GetResult;               (* the answer to the listing GET *)
  http_Post : nat -> PostResult;      (* the answer to the n-th POST of the run *)
  db_fault : nat -> bool;             (* whether the n-th database call fails *)
  url_JoinPath : string -> string -> option string  (* net/url.JoinPath *)
}.

(** Observable actions, in the order they happen. *)
Inductive Event :=
| EvGet (u : string)
| EvPost (text : string)
| EvQuery
| EvExecInsert (a : article)    (* stmt.Exec of the INSERT, whatever it answers *)
| EvExecUpdate (u : string)     (* stmt.Exec of the UPDATE *)
| EvPrintStatus (status : nat)  (* fmt.Println("Error: status code", status) *)
| EvPrintFinish                 (* fmt.Println("finish") *)
| EvFatal.                      (* log.Fatal *)

(** The state of a run: the committed rows of [articles] in rowid order, the
    trace, and how many POSTs and database calls were made.  A run starts
    when [init] has opened the database and executed the schema, so the
    table exists, with the rows earlier runs left in it. *)
Record World := mkWorld {
  db : list article;
  trace : list Event;
  posts : nat;
  dbcalls : nat
}.

(** How the process ends when it does not reach the end of [main]:
    [log.Fatal] exits with status 1, a run-time panic with status 2. *)
Inductive ExitKind := Fatal | Panic.

Inductive Outcome (A : Type) :=
| Ret (a : A)
| Exit (k : ExitKind).
Arguments Ret {A} a.
Arguments Exit {A} k.

Definition M (A : Type) : Type := World -> Outcome A * World.

Definition ret {A} (a : A) : M A := fun w => (Ret a, w).

Definition bind {A B} (m : M A) (f : A -> M B) : M B :=
  fun w =>
    match m w with
    | (Ret a, w') => f a w'
    | (Exit k, w') => (Exit k, w')
    end.

Declare Scope prog_scope.
Delimit Scope prog_scope with prog.
Notation "x <- m ;; k" := (bind m (fun x => k))
  (at level 61, m at next level, right associativity) : prog_scope.
Notation "m ;; k" := (bind m (fun _ => k))
  (at level 61, right associativity) : prog_scope.
Local Open Scope prog_scope.

Definition emit (e : Event) : M unit :=
  fun w => (Ret tt, mkWorld (db w) (trace w ++ [e]) (posts w) (dbcalls w)).

(** [log.Fatal]: the message goes to the log and the process exits; deferred
    calls do not run and an open transaction is never committed. *)
Definition log_Fatal {A} : M A :=
  fun w => (Exit Fatal, mkWorld (db w) (trace w ++ [EvFatal]) (posts w) (dbcalls w)).

Definition panic {A} : M A := fun w => (Exit Panic, w).

Definition get_db : M (list article) := fun w => (Ret (db w), w).

Definition set_db (rows : list article) : M unit :=
  fun w => (Ret tt, mkWorld rows (trace w) (posts w) (dbcalls w)).

(** ** The SQLite table *)

(** The errors [stmt.Exec] can answer with, and their [Error()] text. *)
Inductive SqlError := UniqueConstraintFailed | StorageError.

Definition Error_text (e : SqlError) : string :=
  match e with
  | UniqueConstraintFailed => "UNIQUE constraint failed: articles.url, articles.title"
  | StorageError => "disk I/O error"
  end.

(** [UNIQUE (url, title)]. *)
Definition key_eqb (a b : article) : bool :=
  String.eqb (url a) (url b) && String.eqb (title a) (title b).

Definition violates_unique (a : article) (rows : list article) : bool :=
  existsb (key_eqb a) rows.


(** The schema's invariant: no two rows agree on url and title. *)
Fixpoint unique_keys (rows : list article) : Prop :=
  match rows with
  | [] => True
  | a :: rest => violates_unique a rest = false /\ unique_keys rest
  end.

(** [WHERE read = 0]. *)
Definition unread (a : article) : bool := negb (read a).

(** [ORDER BY date]: the dates the program stores are [YYYY-MM-DD] texts,
    compared byte by byte; rows with equal dates keep their rowid order.
    The column is declared [DATE], so a value that reads as a number would
    be stored and ordered as a number: this order is that of the table only
    while its dates are such texts ([iso_date] below). *)
Definition date_leb (a b : article) : bool := String.leb (date a) (date b).

Fixpoint insert_by_date (a : article) (l : list article) : list article :=
  match l with
  | [] => [a]
  | b :: l' => if date_leb a b then a :: l else b :: insert_by_date a l'
  end.

Fixpoint order_by_date (l : list article) : list article :=
  match l with
  | [] => []
  | a :: l' => insert_by_date a (order_by_date l')
  end.

(** [SELECT url FROM articles WHERE read = 0 ORDER BY date]. *)
Definition select_unread (rows : list article) : list article :=
  order_by_date (filter unread rows).

Definition select_unread_urls (rows : list article) : list string :=
  map url (select_unread rows).

(** [UPDATE articles SET read = 1 WHERE url = ?]. *)
Definition set_read (u : string) (a : article) : article :=
  if String.eqb (url a) u then mkArticle (title a) (url a) (date a) true else a.

Definition update_read (u : string) (rows : list article) : list article :=
  map (set_read u) rows.

(** ** The program *)

Section Program.

Variable E : Env.

(** One call into the [sql] package; the answer is whether it failed. *)
Definition db_call : M bool :=
  fun w => (Ret (db_fault E (dbcalls w)),
            mkWorld (db w) (trace w) (posts w) (S (dbcalls w))).

(** [stmt.Exec(title, url, date)] of
    [INSERT INTO articles (title, url, date) VALUES (?, ?, ?)] in a
    transaction whose rows are [tx]; [read] takes its default.  The date
    is kept as the text passed, which is what the [DATE] column does with
    the [YYYY-MM-DD] texts [fetchAllArticles] passes. *)
Definition Exec_insert (t u d : string) (tx : list article)
  : M (list article * option SqlError) :=
  let row := mkArticle t u d false in
  emit (EvExecInsert row);;
  failed <- db_call;;
  if failed then ret (tx, Some StorageError)
  else if violates_unique row tx then ret (tx, Some UniqueConstraintFailed)
  else ret (tx ++ [row], None).

Fixpoint save_each (articles tx : list article) : M (list article) :=
  match articles with
  | [] => ret tx
  | a :: rest =>
      r <- Exec_insert (title a) (url a) (date a) tx;;
      match snd r with
      | Some err =>
          if GoStrings.Contains (Error_text err) "UNIQUE constraint failed"
          then save_each rest (fst r)  (* continue *)
          else log_Fatal
      | None => save_each rest (fst r)
      end
  end.

Definition saveAllArticles (articles : list article) : M error :=
  failed <- db_call;;                    (* db.Begin *)
  if failed then log_Fatal else
  tx <- get_db;;
  failed <- db_call;;                    (* tx.Prepare *)
  if failed then log_Fatal else
  tx <- save_each articles tx;;
  failed <- db_call;;                    (* tx.Commit *)
  if failed then log_Fatal else
  set_db tx;;
  ret None.

(** The body of the inner [Each] callback of [fetchAllArticles]. *)
Definition parse_item (it : ListItem) : M article :=
  match GoTime.Parse_2006_01_02 (li_date it) with
  | None => log_Fatal
  | Some t =>
      let outputDate := GoTime.Format_2006_01_02 t in
      let path := GoStrings.RemoveFirst (li_href it) "/articles/" in
      match url_JoinPath E (baseURL E) path with
      | None => log_Fatal
      | Some endpoint => ret (mkArticle (li_title it) endpoint outputDate false)
      end
  end.

Fixpoint parse_items (items : list ListItem) (articles : list article)
  : M (list article) :=
  match items with
  | [] => ret articles
  | it :: rest =>
      a <- parse_item it;;
      parse_items rest (articles ++ [a])
  end.

Definition Get : M GetResult :=
  emit (EvGet (baseURL E));; ret (http_Get E).

Definition fetchAllArticles : M unit :=
  r <- Get;;
  match r with
  | GetError _ => log_Fatal
  | GetResponse status body =>
      if negb (status =? StatusOK) then
        emit (EvPrintStatus status);; ret tt
      else
        match body with
        | None => log_Fatal
        | Some doc =>
            articles <- parse_items (List.concat doc) [];;
            err <- saveAllArticles articles;;
            if isErr err then log_Fatal else ret tt
        end
  end.

(** [http.Post(webhookURL, "application/json", {"text": msg})]: the status
    of the response and the error. *)
Definition Post (text : string) : M (nat * error) :=
  fun w =>
    (Ret match http_Post E (posts w) with
         | PostError e => (0, Some e)
         | PostResponse status => (status, None)
         end,
     mkWorld (db w) (trace w ++ [EvPost text]) (S (posts w)) (dbcalls w)).

Definition notifySlack (msg : string) : M error :=
  r <- Post msg;;
  let StatusCode := fst r in
  let err := snd r in
  if isErr err then log_Fatal else
  if negb (StatusCode =? StatusOK) then
    emit (EvPrintStatus StatusCode);;
    ret err
  else ret None.

Definition markAsRead (u : string) : M error :=
  failed <- db_call;;                    (* db.Begin *)
  if failed then log_Fatal else
  tx <- get_db;;
  failed <- db_call;;                    (* tx.Prepare *)
  if failed then log_Fatal else
  emit (EvExecUpdate u);;
  failed <- db_call;;                    (* stmt.Exec(url) *)
  if failed then log_Fatal else
  failed <- db_call;;                    (* tx.Commit *)
  if failed then log_Fatal else
  set_db (update_read u tx);;
  ret None.

(** [db.Query] and the [rows.Next] loop that appends every url. *)
Definition Query_unread : M (list string * error) :=
  emit EvQuery;;
  failed <- db_call;;
  if failed then ret ([], Some (Error_text StorageError))
  else
    rows <- get_db;;
    ret (select_unread_urls rows, None).

(** The slice expression [s[:n]].  Its bound is the capacity of [s]; a
    slice grown from nil by one [append] per element has a capacity below
    three at lengths 0, 1 and 2, so [s[:3]] panics exactly at these
    lengths. *)
Definition slice_to (n : nat) (s : list string) : M (list string) :=
  if List.length s <? n then panic else ret (firstn n s).

(** The body of [for _, url := range urls[:3]]. *)
Fixpoint notify_each (urls : list string) : M unit :=
  match urls with
  | [] => ret tt
  | u :: rest =>
      err <- notifySlack u;;
      if isErr err then log_Fatal else
      err <- markAsRead u;;
      if isErr err then log_Fatal else
      notify_each rest
  end.

(** [main] from the query on. *)
Definition main_notify : M unit :=
  r <- Query_unread;;
  if isErr (snd r) then log_Fatal else
  selected <- slice_to 3 (fst r);;
  notify_each selected;;
  emit EvPrintFinish.

Definition main : M unit :=
  (if negb (Weekday_eqb (now_weekday E) Friday) then fetchAllArticles
   else ret tt);;
  main_notify.

End Program.

(** Lines 176-180 of [fetchAllArticles] as a function of the date text:
    [None] is the branch that calls [log.Fatal]. *)
Definition convertDate (text : string) : option string :=
  option_map GoTime.Format_2006_01_02 (GoTime.Parse_2006_01_02 text).

(** A date text is well formed when it is [YYYY.MM.DD] for a date of the
    calendar. *)
Definition wellFormedDate (text : string) : Prop :=
  exists y m d, GoTime.validDate y m d /\ text = GoTime.dotted y m d.

(** Ascending and strictly ascending dates, as relations. *)
Definition date_le (a b : article) : Prop := date_leb a b = true.
Definition date_lt (a b : article) : Prop := String.ltb (date a) (date b) = true.

(** The table after the updates for the urls [us], in that order. *)
Definition marks (us : list string) (rows : list article) : list article :=
  fold_left (fun l u => update_read u l) us rows.

(** The texts posted to the webhook, the listing GETs and the INSERT
    executions recorded in a trace. *)
Definition post_texts (t : list Event) : list string :=
  flat_map (fun e => match e with EvPost text => [text] | _ => [] end) t.

Definition is_get (e : Event) : bool :=
  match e with EvGet _ => true | _ => false end.

Definition is_insert (e : Event) : bool :=
  match e with EvExecInsert _ => true | _ => false end.

(** The rows of a transaction after the INSERT of [a], and after the
    INSERTs of a save pass in which no call fails for another reason than
    the constraint. *)
Definition insert_row (tx : list article) (a : article) : list article :=
  let row := mkArticle (title a) (url a) (date a) false in
  if violates_unique row tx then tx else tx ++ [row].

Definition insert_rows (articles tx : list article) : list article :=
  fold_left insert_row articles tx.

(** A row with its flag set, its position-wise comparison with another
    row, and the number of positions at which two tables differ. *)
Definition as_read (a : article) : article :=
  mkArticle (title a) (url a) (date a) true.

Definition article_eqb (a b : article) : bool :=
  String.eqb (title a) (title b) && String.eqb (url a) (url b) &&
  String.eqb (date a) (date b) && Bool.eqb (read a) (read b).

Definition changed_rows (old new : list article) : nat :=
  List.length
    (filter (fun p => negb (article_eqb (fst p) (snd p))) (combine old new)).

(** The rows whose url is none of [us]. *)
Definition not_among (us : list string) (a : article) : bool :=
  negb (existsb (String.eqb (url a)) us).

(** Events of the notify step: anything but a listing GET or an INSERT. *)
Definition notify_event (e : Event) : Prop :=
  is_get e = false /\ is_insert e = false.

(** No row with url [u] is unread. *)
Definition all_read (u : string) (rows : list article) : Prop :=
  forall a, In a rows -> url a = u -> read a = true.

(** The body of the inner callback of [fetchAllArticles] as a function of
    the entry: the article it appends, or [None] where it calls
    [log.Fatal]; and the articles of a list of entries, [None] when one of
    them is fatal. *)
Definition article_of_item (E : Env) (it : ListItem) : option article :=
  match GoTime.Parse_2006_01_02 (li_date it) with
  | None => None
  | Some t =>
      match url_JoinPath E (baseURL E)
              (GoStrings.RemoveFirst (li_href it) "/articles/") with
      | None => None
      | Some endpoint =>
          Some (mkArticle (li_title it) endpoint (GoTime.Format_2006_01_02 t) false)
      end
  end.

Fixpoint articles_of_items (E : Env) (items : list ListItem)
  : option (list article) :=
  match items with
  | [] => Some []
  | it :: rest =>
      match article_of_item E it, articles_of_items E rest with
      | Some a, Some l => Some (a :: l)
      | _, _ => None
      end
  end.

(** The row an INSERT of [a] writes. *)
Definition row_of (a : article) : article :=
  mkArticle (title a) (url a) (date a) false.

(** A row after the updates for the urls [us]. *)
Definition mark_among (us : list string) (a : article) : article :=
  if not_among us a then a else as_read a.

(** [new] keeps the row [a]: same title, url and date, and read if [a] is. *)
Definition keeps_row (a a' : article) : Prop :=
  title a' = title a /\ url a' = url a /\ date a' = date a /\
  (read a = true -> read a' = true).

(** Every row of [old] is kept by [new] at its position. *)
Definition keeps_rows (old new : list article) : Prop :=
  forall i a, nth_error old i = Some a ->
              exists a', nth_error new i = Some a' /\ keeps_row a a'.

(** The ten bytes of a text [abce-fg-hi]. *)
Definition dash_text (a b c e f g h i : ascii) : string :=
  String a (String b (String c (String e (String "-"
    (String f (String g (String "-" (String h (String i EmptyString))))))))).

(** A calendar date as one number, [YYYYMMDD]. *)
Definition date_number (y m d : nat) : nat := (y * 100 + m) * 100 + d.

(** Whether the database calls number [n], [n+1], ..., [n+k-1] all
    succeed. *)
Definition calls_succeed (E : Env) (n k : nat) : bool :=
  forallb (fun i => negb (db_fault E (n + i))) (seq 0 k).

(** A text has the form [YYYY.MM.DD] when it is four digits, a dot, two
    digits, a dot and two digits. *)
Definition hasDateForm (text : string) : Prop :=
  exists a b c e f g h i,
    forallb GoTime.isDigitChar [a; b; c; e; f; g; h; i] = true /\
    text = GoTime.text10 a b c e f g h i.

(** A stored date is the text [YYYY-MM-DD] of a calendar date, as
    [fetchAllArticles] writes it. *)
Definition iso_date (text : string) : Prop :=
  exists y m d, GoTime.validDate y m d /\ text = GoTime.dashed y m d.

(** The world in which [log.Fatal] leaves the process. *)
Definition after_Fatal (w : World) : World :=
  mkWorld (db w) (trace w ++ [EvFatal]) (posts w) (dbcalls w).

(** ** Concrete environments and tables used in examples *)

Module Examples.

Definition joinPath (base path : string) : option string :=
  Some (base ++ "/" ++ path)%string.

(** A run on [day] whose listing GET answers [get], whose webhook answers
    every POST with [status], and whose storage never fails. *)
Definition env (day : Weekday) (get : GetResult) (status : nat) : Env :=
  mkEnv day "https://blog.example" get (fun _ => PostResponse status)
        (fun _ => false) joinPath.

(** The same, with a storage that fails at every call. *)
Definition env_storage_down (day : Weekday) (get : GetResult) (status : nat)
  : Env :=
  mkEnv day "https://blog.example" get (fun _ => PostResponse status)
        (fun _ => true) joinPath.

Definition start (rows : list article) : World := mkWorld rows [] 0 0.

Definition row (name day : string) : article :=
  mkArticle ("Title " ++ name) ("https://blog.example/" ++ name) day false.

(** Five unread rows, not in date order. *)
Definition five : list article :=
  [row "c" "2023-01-03"; row "a" "2023-01-01"; row "e" "2023-01-05";
   row "b" "2023-01-02"; row "d" "2023-01-04"].

(** Five unread rows of which the first and the fourth by date are the
    same page under two titles. *)
Definition five_shared : list article :=
  [row "a" "2023-01-01"; row "b" "2023-01-02"; row "c" "2023-01-03";
   mkArticle "Title a, revised" "https://blog.example/a" "2023-01-04" false;
   row "e" "2023-01-05"].

Definition three : list article :=
  [row "a" "2023-01-01"; row "b" "2023-01-02"; row "c" "2023-01-03"].

(** A listing page with one entry dated before the rows of [five]. *)
Definition old_page : Document :=
  [[mkListItem "/articles/old" "Old" "2022.12.31"]].

(** Two unread rows and a read one. *)
Definition two_unread : list article :=
  [row "a" "2023-01-01"; row "b" "2023-01-02";
   mkArticle "Title z" "https://blog.example/z" "2022-12-01" true].

(** A listing page with one entry whose date has a one-digit month. *)
Definition bad_page : Document :=
  [[mkListItem "/articles/foo" "Foo" "2023.6.20"]].

Definition good_page : Document :=
  [[mkListItem "/articles/foo" "Foo" "2023.06.20"]].

End Examples.

(** * Properties *)

(** ** Dates *)

Section DateFacts.
Import GoTime.

Lemma digitChar_nat n : n < 10 -> nat_of_ascii (digitChar n) = 48 + n.
Proof.
  intros H. unfold digitChar. apply nat_ascii_embedding. lia.
Qed.

Lemma isDigitChar_digitChar n : n < 10 -> isDigitChar (digitChar n) = true.
Proof.
  intros H. unfold isDigitChar. rewrite digitChar_nat by assumption.
  apply andb_true_intro; split; apply Nat.leb_le; lia.
Qed.

Lemma digitVal_digitChar n : n < 10 -> digitVal (digitChar n) = n.
Proof.
  intros H. unfold digitVal. rewrite digitChar_nat by assumption. lia.
Qed.

Lemma isDigitChar_inv c :
  isDigitChar c = true -> digitVal c < 10 /\ c = digitChar (digitVal c).
Proof.
  unfold isDigitChar, digitVal, digitChar. intros H.
  apply andb_prop in H. destruct H as [H1 H2].
  apply Nat.leb_le in H1. apply Nat.leb_le in H2. split; [lia|].
  replace (48 + (nat_of_ascii c - 48)) with (nat_of_ascii c) by lia.
  symmetry. apply ascii_nat_embedding.
Qed.

Lemma dot_not_digit : isDigitChar "."%char = false.
Proof. reflexivity. Qed.

Lemma Parse_digits a b c e f g h i :
  a < 10 -> b < 10 -> c < 10 -> e < 10 ->
  f < 10 -> g < 10 -> h < 10 -> i < 10 ->
  Parse_2006_01_02
    (text10 (digitChar a) (digitChar b) (digitChar c) (digitChar e)
            (digitChar f) (digitChar g) (digitChar h) (digitChar i)) =
  if (f * 10 + g =? 0) || (12 <? f * 10 + g) then None
  else if (h * 10 + i <? 1) || (daysIn (f * 10 + g) (digits4 a b c e) <? h * 10 + i)
       then None
       else Some (mkTime (digits4 a b c e) (f * 10 + g) (h * 10 + i)).
Proof.
  intros.
  unfold Parse_2006_01_02, text10, getyear, atoi, getnum, skip1, digits4.
  cbn [atoi_from].
  repeat (rewrite ?isDigitChar_digitChar, ?digitVal_digitChar by assumption;
          cbn iota beta; rewrite ?Ascii.eqb_refl).
  cbn [Nat.mul Nat.add].
  destruct ((f * 10 + g =? 0) || (12 <? f * 10 + g)); [reflexivity|].
  repeat (rewrite ?isDigitChar_digitChar, ?digitVal_digitChar by assumption;
          cbn iota beta; rewrite ?Ascii.eqb_refl).
  reflexivity.
Qed.

(** A text that [time.Parse] accepts is made of ten bytes: four digits, a
    dot, two digits, a dot, two digits. *)
Lemma Parse_shape s t :
  Parse_2006_01_02 s = Some t ->
  exists a b c e f g h i,
    (a < 10 /\ b < 10 /\ c < 10 /\ e < 10) /\
    (f < 10 /\ g < 10 /\ h < 10 /\ i < 10) /\
    s = text10 (digitChar a) (digitChar b) (digitChar c) (digitChar e)
               (digitChar f) (digitChar g) (digitChar h) (digitChar i).
Proof.
  unfold Parse_2006_01_02, getyear, atoi.
  destruct s as [|c0 [|c1 [|c2 [|c3 s]]]]; try discriminate.
  cbn [atoi_from].
  destruct (isDigitChar c0) eqn:D0; try discriminate.
  destruct (isDigitChar c1) eqn:D1; try discriminate.
  destruct (isDigitChar c2) eqn:D2; try discriminate.
  destruct (isDigitChar c3) eqn:D3; try discriminate.
  destruct s as [|p s]; cbn [skip1]; try discriminate.
  destruct (Ascii.eqb_spec p "."%char) as [->|_]; try discriminate.
  destruct s as [|c4 [|c5 s]]; cbn [getnum]; try discriminate.
  { destruct (isDigitChar c4); discriminate. }
  destruct (isDigitChar c4) eqn:D4; try discriminate.
  destruct (isDigitChar c5) eqn:D5; try discriminate.
  destruct (_ || _); try discriminate.
  destruct s as [|q s]; cbn [skip1]; try discriminate.
  destruct (Ascii.eqb_spec q "."%char) as [->|_]; try discriminate.
  destruct s as [|c6 [|c7 s]]; cbn [getnum]; try discriminate.
  { destruct (isDigitChar c6); discriminate. }
  destruct (isDigitChar c6) eqn:D6; try discriminate.
  destruct (isDigitChar c7) eqn:D7; try discriminate.
  destruct s; try discriminate.
  intros _.
  apply isDigitChar_inv in D0, D1, D2, D3, D4, D5, D6, D7.
  exists (digitVal c0), (digitVal c1), (digitVal c2), (digitVal c3),
         (digitVal c4), (digitVal c5), (digitVal c6), (digitVal c7).
  unfold text10.
  destruct D0 as [? <-], D1 as [? <-], D2 as [? <-], D3 as [? <-],
           D4 as [? <-], D5 as [? <-], D6 as [? <-], D7 as [? <-].
  repeat split; assumption.
Qed.

Lemma dotted_text10 y m d :
  dotted y m d =
  text10 (digitChar (y / 1000 mod 10)) (digitChar (y / 100 mod 10))
         (digitChar (y / 10 mod 10)) (digitChar (y mod 10))
         (digitChar (m / 10 mod 10)) (digitChar (m mod 10))
         (digitChar (d / 10 mod 10)) (digitChar (d mod 10)).
Proof. reflexivity. Qed.

Lemma daysIn_le_31 m y : daysIn m y <= 31.
Proof.
  unfold daysIn.
  do 12 (destruct m as [|m]; [try destruct (isLeap y); lia|]). lia.
Qed.

Lemma Parse_dotted y m d :
  validDate y m d -> Parse_2006_01_02 (dotted y m d) = Some (mkTime y m d).
Proof.
  intros (Hy & Hm & Hd).
  pose proof (daysIn_le_31 m y) as Hle.
  rewrite dotted_text10, Parse_digits
    by (apply Nat.mod_upper_bound; discriminate).
  replace (digits4 _ _ _ _) with y by (unfold digits4; lia).
  replace (m / 10 mod 10 * 10 + m mod 10) with m by lia.
  replace (d / 10 mod 10 * 10 + d mod 10) with d by lia.
  replace ((m =? 0) || (12 <? m)) with false.
  2:{ symmetry. apply orb_false_intro;
      [apply Nat.eqb_neq | apply Nat.ltb_ge]; lia. }
  replace ((d <? 1) || (daysIn m y <? d)) with false.
  2:{ symmetry. apply orb_false_intro; apply Nat.ltb_ge; lia. }
  reflexivity.
Qed.

Lemma Parse_sound s t :
  Parse_2006_01_02 s = Some t ->
  validDate (Year t) (Month t) (Day t) /\
  s = dotted (Year t) (Month t) (Day t).
Proof.
  intros H.
  destruct (Parse_shape _ _ H)
    as (a & b & c & e & f & g & h & i & (Ha & Hb & Hc & He)
        & (Hf & Hg & Hh & Hi) & ->).
  rewrite Parse_digits in H by assumption.
  destruct ((f * 10 + g =? 0) || (12 <? f * 10 + g)) eqn:Rm; [discriminate|].
  destruct ((h * 10 + i <? 1) || (_ <? h * 10 + i)) eqn:Rd; [discriminate|].
  injection H as <-. cbn [Year Month Day].
  apply orb_false_elim in Rm, Rd.
  destruct Rm as [Rm1 Rm2], Rd as [Rd1 Rd2].
  apply Nat.eqb_neq in Rm1. apply Nat.ltb_ge in Rm2, Rd1, Rd2.
  unfold digits4 in *.
  split.
  - unfold validDate. repeat split; lia.
  - rewrite dotted_text10.
    replace ((((a * 10 + b) * 10 + c) * 10 + e) / 1000 mod 10) with a by lia.
    replace ((((a * 10 + b) * 10 + c) * 10 + e) / 100 mod 10) with b by lia.
    replace ((((a * 10 + b) * 10 + c) * 10 + e) / 10 mod 10) with c by lia.
    replace ((((a * 10 + b) * 10 + c) * 10 + e) mod 10) with e by lia.
    replace ((f * 10 + g) / 10 mod 10) with f by lia.
    replace ((f * 10 + g) mod 10) with g by lia.
    replace ((h * 10 + i) / 10 mod 10) with h by lia.
    replace ((h * 10 + i) mod 10) with i by lia.
    reflexivity.
Qed.

Lemma Format_dashed t :
  Format_2006_01_02 t = dashed (Year t) (Month t) (Day t).
Proof. reflexivity. Qed.

End DateFacts.

(** ** The operations, as equations on the world *)

Ltac unfold_prog :=
  unfold bind, ret, emit, get_db, set_db, log_Fatal, panic, db_call;
  cbn [fst snd db trace posts dbcalls].

Section Equations.

Variable E : Env.

Lemma notifySlack_eq msg w :
  notifySlack E msg w =
  match http_Post E (posts w) with
  | PostError _ =>
      (Exit Fatal,
       mkWorld (db w) ((trace w ++ [EvPost msg]) ++ [EvFatal])
               (S (posts w)) (dbcalls w))
  | PostResponse status =>
      (Ret None,
       mkWorld (db w)
               (if status =? StatusOK then trace w ++ [EvPost msg]
                else (trace w ++ [EvPost msg]) ++ [EvPrintStatus status])
               (S (posts w)) (dbcalls w))
  end.
Proof.
  unfold notifySlack, Post. unfold_prog.
  destruct (http_Post E (posts w)) as [e|status]; cbn; [reflexivity|].
  destruct (status =? StatusOK); reflexivity.
Qed.

Lemma markAsRead_eq u w :
  markAsRead E u w =
  let n := dbcalls w in
  if db_fault E n then
    (Exit Fatal, mkWorld (db w) (trace w ++ [EvFatal]) (posts w) (1 + n))
  else if db_fault E (1 + n) then
    (Exit Fatal, mkWorld (db w) (trace w ++ [EvFatal]) (posts w) (2 + n))
  else if db_fault E (2 + n) then
    (Exit Fatal,
     mkWorld (db w) ((trace w ++ [EvExecUpdate u]) ++ [EvFatal]) (posts w) (3 + n))
  else if db_fault E (3 + n) then
    (Exit Fatal,
     mkWorld (db w) ((trace w ++ [EvExecUpdate u]) ++ [EvFatal]) (posts w) (4 + n))
  else
    (Ret None,
     mkWorld (update_read u (db w)) (trace w ++ [EvExecUpdate u]) (posts w) (4 + n)).
Proof.
  unfold markAsRead. unfold_prog. cbn zeta.
  destruct (db_fault E (dbcalls w)); [reflexivity|]. cbn.
  destruct (db_fault E (S (dbcalls w))); [reflexivity|]. cbn.
  destruct (db_fault E (S (S (dbcalls w)))); [reflexivity|]. cbn.
  destruct (db_fault E (S (S (S (dbcalls w))))); reflexivity.
Qed.

End Equations.

(** ** [ORDER BY date] sorts, permutes and is determined by distinct dates *)

Section Ordering.

Lemma Ascii_compare_lt_trans a b c :
  Ascii.compare a b = Lt -> Ascii.compare b c = Lt -> Ascii.compare a c = Lt.
Proof.
  unfold Ascii.compare. rewrite !N.compare_lt_iff. apply N.lt_trans.
Qed.

Lemma String_compare_trans_le s1 :
  forall s2 s3,
    String.compare s1 s2 <> Gt -> String.compare s2 s3 <> Gt ->
    String.compare s1 s3 <> Gt.
Proof.
  induction s1 as [|a s1 IH]; intros [|b s2] [|c s3]; cbn;
    try congruence.
  destruct (Ascii.compare a b) eqn:Hab; try congruence.
  - apply Ascii.compare_eq_iff in Hab. subst b.
    destruct (Ascii.compare a c); try congruence. apply IH.
  - intros _.
    destruct (Ascii.compare b c) eqn:Hbc; try congruence.
    + apply Ascii.compare_eq_iff in Hbc. subst c. rewrite Hab. congruence.
    + rewrite (Ascii_compare_lt_trans _ _ _ Hab Hbc). congruence.
Qed.

Lemma String_leb_trans s1 s2 s3 :
  String.leb s1 s2 = true -> String.leb s2 s3 = true -> String.leb s1 s3 = true.
Proof.
  unfold String.leb. intros H12 H23.
  pose proof (String_compare_trans_le s1 s2 s3) as T.
  destruct (String.compare s1 s2), (String.compare s2 s3),
    (String.compare s1 s3); try reflexivity; try discriminate;
    exfalso; apply T; congruence.
Qed.

Lemma String_ltb_not_leb s1 s2 :
  String.ltb s1 s2 = true -> String.leb s2 s1 = false.
Proof.
  unfold String.ltb, String.leb. rewrite (String.compare_antisym s2 s1).
  destruct (String.compare s1 s2); cbn; congruence.
Qed.

Lemma date_le_trans a b c : date_le a b -> date_le b c -> date_le a c.
Proof. unfold date_le, date_leb. apply String_leb_trans. Qed.

Lemma date_leb_total a b : date_leb a b = false -> date_leb b a = true.
Proof.
  unfold date_leb. destruct (String.leb_total (date a) (date b)); congruence.
Qed.

Lemma insert_by_date_perm a l : Permutation (a :: l) (insert_by_date a l).
Proof.
  induction l as [|b l IH]; cbn; [reflexivity|].
  destruct (date_leb a b); [reflexivity|].
  rewrite perm_swap. apply perm_skip, IH.
Qed.

Lemma order_by_date_perm l : Permutation l (order_by_date l).
Proof.
  induction l as [|a l IH]; cbn; [constructor|].
  rewrite <- insert_by_date_perm. apply perm_skip, IH.
Qed.

Lemma insert_by_date_sorted a l :
  StronglySorted date_le l -> StronglySorted date_le (insert_by_date a l).
Proof.
  induction 1 as [|b l Hs IH Hb]; cbn.
  - repeat constructor.
  - destruct (date_leb a b) eqn:Hab.
    + constructor; [constructor; assumption|].
      constructor; [exact Hab|].
      eapply Forall_impl; [|exact Hb].
      intros c Hc. eapply date_le_trans; eassumption.
    + constructor; [exact IH|].
      apply date_leb_total in Hab.
      rewrite <- insert_by_date_perm. constructor; assumption.
Qed.

Lemma order_by_date_sorted l : StronglySorted date_le (order_by_date l).
Proof.
  induction l as [|a l IH]; cbn; [constructor|].
  apply insert_by_date_sorted, IH.
Qed.

(** A list in strictly increasing date order is the only ascending
    arrangement of its rows. *)
Lemma sorted_perm_unique l' :
  StronglySorted date_lt l' ->
  forall l, StronglySorted date_le l -> Permutation l l' -> l = l'.
Proof.
  induction 1 as [|x xs Hs IH Hx]; intros l Hl P.
  - apply Permutation_sym, Permutation_nil in P. exact P.
  - destruct l as [|y ys].
    + apply Permutation_nil in P. discriminate.
    + apply StronglySorted_inv in Hl. destruct Hl as [Hys Hy].
      assert (y = x) as ->.
      { assert (In y (x :: xs)) as Iy
          by (eapply Permutation_in; [exact P | left; reflexivity]).
        destruct Iy as [->|Iy]; [reflexivity|].
        assert (In x (y :: ys)) as Ix
          by (eapply Permutation_in;
              [apply Permutation_sym; exact P | left; reflexivity]).
        destruct Ix as [->|Ix]; [reflexivity|].
        rewrite Forall_forall in Hx, Hy.
        specialize (Hx _ Iy). specialize (Hy _ Ix).
        apply String_ltb_not_leb in Hx.
        unfold date_le, date_leb in Hy. congruence. }
      f_equal. apply IH; [exact Hys|].
      eapply Permutation_cons_inv; exact P.
Qed.

Lemma order_by_date_unique l l' :
  Permutation l l' -> StronglySorted date_lt l' -> order_by_date l = l'.
Proof.
  intros P Hs. apply sorted_perm_unique; [exact Hs|apply order_by_date_sorted|].
  rewrite <- order_by_date_perm. exact P.
Qed.

End Ordering.

(** ** Rows, updates and the unread query *)

Section StoreFacts.

Lemma unread_set_read u a :
  unread (set_read u a) = unread a && negb (String.eqb (url a) u).
Proof.
  unfold set_read, unread.
  destruct (String.eqb (url a) u); cbn; [|rewrite andb_true_r];
    try reflexivity.
  rewrite andb_false_r. reflexivity.
Qed.

Lemma url_set_read u a : url (set_read u a) = url a.
Proof. unfold set_read. destruct (String.eqb (url a) u); reflexivity. Qed.

Lemma read_set_read u a : read a = true -> read (set_read u a) = true.
Proof.
  unfold set_read. destruct (String.eqb (url a) u); [reflexivity|tauto].
Qed.

Lemma update_read_all_read u rows : all_read u (update_read u rows).
Proof.
  intros a Ha Hu. unfold update_read in Ha. apply in_map_iff in Ha.
  destruct Ha as (b & <- & _). rewrite url_set_read in Hu.
  unfold set_read. apply String.eqb_eq in Hu. rewrite Hu. reflexivity.
Qed.

Lemma update_read_keeps_all_read u v rows :
  all_read u rows -> all_read u (update_read v rows).
Proof.
  intros H a Ha Hu. unfold update_read in Ha. apply in_map_iff in Ha.
  destruct Ha as (b & <- & Hb). rewrite url_set_read in Hu.
  apply read_set_read. exact (H b Hb Hu).
Qed.

Lemma marks_keeps_all_read u us :
  forall rows, all_read u rows -> all_read u (marks us rows).
Proof.
  induction us as [|v us IH]; intros rows H; cbn; [exact H|].
  apply IH, update_read_keeps_all_read, H.
Qed.

Lemma in_select_unread_urls u rows :
  In u (select_unread_urls rows) <->
  exists a, In a rows /\ read a = false /\ url a = u.
Proof.
  unfold select_unread_urls, select_unread. rewrite in_map_iff. split.
  - intros (a & Hu & Ha).
    apply (Permutation_in _ (Permutation_sym (order_by_date_perm _))) in Ha.
    apply filter_In in Ha. destruct Ha as [Ha Hr].
    exists a. unfold unread in Hr. apply negb_true_iff in Hr. tauto.
  - intros (a & Ha & Hr & Hu). exists a. split; [exact Hu|].
    apply (Permutation_in _ (order_by_date_perm _)).
    apply filter_In. split; [exact Ha|]. unfold unread. rewrite Hr. reflexivity.
Qed.

Lemma all_read_not_selected u rows :
  all_read u rows -> ~ In u (select_unread_urls rows).
Proof.
  intros H Hin. apply in_select_unread_urls in Hin.
  destruct Hin as (a & Ha & Hr & Hu). specialize (H a Ha Hu). congruence.
Qed.

Lemma post_texts_app t1 t2 :
  post_texts (t1 ++ t2) = post_texts t1 ++ post_texts t2.
Proof. unfold post_texts. apply flat_map_app. Qed.

End StoreFacts.

(** ** The notify loop *)

Section NotifyFacts.

Variable E : Env.

Lemma notifySlack_cases msg w o w1 :
  notifySlack E msg w = (o, w1) ->
  (o = Ret None \/ o = Exit Fatal) /\
  db w1 = db w /\
  post_texts (trace w1) = post_texts (trace w) ++ [msg] /\
  posts w1 = S (posts w) /\ dbcalls w1 = dbcalls w.
Proof.
  rewrite notifySlack_eq.
  destruct (http_Post E (posts w)) as [e|status].
  - intros [= <- <-]. cbn. rewrite !post_texts_app. cbn.
    rewrite app_nil_r. auto.
  - intros [= <- <-]. cbn.
    destruct (status =? StatusOK); rewrite !post_texts_app; cbn;
      rewrite ?app_nil_r; auto.
Qed.

Lemma markAsRead_cases u w o w2 :
  markAsRead E u w = (o, w2) ->
  post_texts (trace w2) = post_texts (trace w) /\
  posts w2 = posts w /\
  ((o = Ret None /\ db w2 = update_read u (db w)) \/
   (o = Exit Fatal /\ db w2 = db w)).
Proof.
  rewrite markAsRead_eq. cbn zeta.
  destruct (db_fault E (dbcalls w));
    [|destruct (db_fault E (1 + dbcalls w));
      [|destruct (db_fault E (2 + dbcalls w));
        [|destruct (db_fault E (3 + dbcalls w))]]];
    intros [= <- <-]; cbn [db trace posts]; rewrite !post_texts_app; cbn;
    rewrite ?app_nil_r; auto.
Qed.

(** Neither call ever hands a non-nil error to [main]. *)
Lemma notifySlack_returns_nil msg w err w' :
  notifySlack E msg w = (Ret err, w') -> err = None.
Proof.
  intros H. destruct (notifySlack_cases _ _ _ _ H) as ([Ho|Ho] & _);
    congruence.
Qed.

Lemma markAsRead_returns_nil u w err w' :
  markAsRead E u w = (Ret err, w') -> err = None.
Proof.
  intros H.
  destruct (markAsRead_cases _ _ _ _ H) as (_ & _ & [[Ho _]|[Ho _]]);
    congruence.
Qed.

Lemma notify_each_cons u rest w :
  notify_each E (u :: rest) w =
  match notifySlack E u w with
  | (Ret _, w1) =>
      match markAsRead E u w1 with
      | (Ret _, w2) => notify_each E rest w2
      | (Exit k, w2) => (Exit k, w2)
      end
  | (Exit k, w1) => (Exit k, w1)
  end.
Proof.
  cbn [notify_each]. unfold bind at 1.
  destruct (notifySlack E u w) as [[err|k] w1] eqn:Hn; [|reflexivity].
  rewrite (notifySlack_returns_nil _ _ _ _ Hn). cbn [isErr].
  unfold bind at 1.
  destruct (markAsRead E u w1) as [[err'|k] w2] eqn:Hm; [|reflexivity].
  rewrite (markAsRead_returns_nil _ _ _ _ Hm). reflexivity.
Qed.

(** Whatever happens, the loop only applies updates for urls of its list,
    in order, and posts only texts of its list, in order. *)
Lemma notify_each_effect us :
  forall w o w',
    notify_each E us w = (o, w') ->
    exists marked posted,
      db w' = marks marked (db w) /\
      post_texts (trace w') = post_texts (trace w) ++ posted /\
      marked = firstn (List.length marked) us /\
      posted = firstn (List.length posted) us /\
      (o = Ret tt -> marked = us /\ posted = us).
Proof.
  induction us as [|u rest IH]; intros w o w'.
  - intros [= <- <-]. exists [], []. cbn. rewrite app_nil_r.
    repeat split; reflexivity.
  - rewrite notify_each_cons.
    destruct (notifySlack E u w) as [o1 w1] eqn:Hn.
    destruct (notifySlack_cases _ _ _ _ Hn) as (Ho & Hd1 & Hp1 & _).
    destruct Ho as [-> | ->].
    + destruct (markAsRead E u w1) as [o2 w2] eqn:Hm.
      destruct (markAsRead_cases _ _ _ _ Hm)
        as (Hp2 & _ & [[-> Hd2]|[-> Hd2]]).
      * intros Hrest.
        destruct (IH _ _ _ Hrest) as (marked & posted & Hd & Hp & Hm1 & Hq1 & Hr).
        exists (u :: marked), (u :: posted).
        rewrite Hd, Hp, Hd2, Hp2, Hd1, Hp1, <- app_assoc.
        cbn [app List.length firstn marks fold_left].
        split; [reflexivity|]. split; [reflexivity|].
        split; [f_equal; assumption|]. split; [f_equal; assumption|].
        intros Hret. destruct (Hr Hret). split; congruence.
      * intros [= <- <-]. exists [], [u].
        rewrite Hd2, Hp2, Hd1, Hp1.
        repeat split; try reflexivity; discriminate.
    + intros [= <- <-]. exists [], [u]. rewrite Hd1, Hp1.
      repeat split; try reflexivity; discriminate.
Qed.

End NotifyFacts.

(** ** [main] from the query on *)

Section MainFacts.

Variable E : Env.

Lemma notify_each_completes us :
  (forall n, db_fault E n = false) ->
  (forall n, exists status, http_Post E n = PostResponse status) ->
  forall w, fst (notify_each E us w) = Ret tt.
Proof.
  intros Hdb Hpost. induction us as [|u rest IH]; intros w; [reflexivity|].
  rewrite notify_each_cons, notifySlack_eq.
  destruct (Hpost (posts w)) as [status ->].
  rewrite markAsRead_eq. cbn zeta. rewrite !Hdb. apply IH.
Qed.

Lemma main_notify_eq w :
  main_notify E w =
  let w1 := mkWorld (db w) (trace w ++ [EvQuery]) (posts w) (S (dbcalls w)) in
  if db_fault E (dbcalls w) then
    (Exit Fatal,
     mkWorld (db w) ((trace w ++ [EvQuery]) ++ [EvFatal]) (posts w) (S (dbcalls w)))
  else if List.length (select_unread_urls (db w)) <? 3 then (Exit Panic, w1)
  else
    match notify_each E (firstn 3 (select_unread_urls (db w))) w1 with
    | (Ret _, w2) =>
        (Ret tt,
         mkWorld (db w2) (trace w2 ++ [EvPrintFinish]) (posts w2) (dbcalls w2))
    | (Exit k, w2) => (Exit k, w2)
    end.
Proof.
  unfold main_notify, Query_unread, slice_to. unfold_prog. cbn zeta.
  destruct (db_fault E (dbcalls w));
    cbn [fst snd isErr db trace posts dbcalls]; [reflexivity|].
  destruct (List.length (select_unread_urls (db w)) <? 3); [reflexivity|].
  destruct (notify_each E _ _) as [[[]|k] w2]; reflexivity.
Qed.

Lemma main_eq w :
  main E w =
  if Weekday_eqb (now_weekday E) Friday then main_notify E w
  else
    match fetchAllArticles E w with
    | (Ret _, w1) => main_notify E w1
    | (Exit k, w1) => (Exit k, w1)
    end.
Proof.
  unfold main, bind.
  destruct (Weekday_eqb (now_weekday E) Friday); cbn; [reflexivity|].
  destruct (fetchAllArticles E w) as [[[]|k] w1]; reflexivity.
Qed.

End MainFacts.

(** ** The save pass *)

Section SaveFacts.

Lemma key_eqb_iff a b :
  key_eqb a b = true <-> url a = url b /\ title a = title b.
Proof.
  unfold key_eqb. rewrite andb_true_iff, !String.eqb_eq. tauto.
Qed.

Lemma key_eqb_sym a b : key_eqb a b = key_eqb b a.
Proof.
  unfold key_eqb.
  rewrite (String.eqb_sym (url a)), (String.eqb_sym (title a)). reflexivity.
Qed.


Lemma violates_unique_app a l1 l2 :
  violates_unique a (l1 ++ l2) = violates_unique a l1 || violates_unique a l2.
Proof. apply existsb_app. Qed.

Lemma unique_keys_snoc tx row :
  unique_keys tx -> violates_unique row tx = false -> unique_keys (tx ++ [row]).
Proof.
  induction tx as [|a tx IH]; cbn [unique_keys app].
  - intros _ _. split; [reflexivity|exact I].
  - intros [Ha Htx] Hrow. cbn in Hrow. apply orb_false_elim in Hrow.
    destruct Hrow as [Hra Hrow]. split; [|apply IH; assumption].
    rewrite violates_unique_app, Ha. cbn.
    rewrite key_eqb_sym, Hra. reflexivity.
Qed.

Lemma insert_row_unique tx a : unique_keys tx -> unique_keys (insert_row tx a).
Proof.
  intros H. unfold insert_row. cbn zeta.
  destruct (violates_unique _ tx) eqn:Hv; [exact H|].
  apply unique_keys_snoc; assumption.
Qed.

Lemma insert_rows_cons a rest tx :
  insert_rows (a :: rest) tx = insert_rows rest (insert_row tx a).
Proof. reflexivity. Qed.

Lemma insert_rows_unique articles :
  forall tx, unique_keys tx -> unique_keys (insert_rows articles tx).
Proof.
  induction articles as [|a rest IH]; intros tx H; [exact H|].
  rewrite insert_rows_cons. apply IH, insert_row_unique, H.
Qed.





(** Rows that are all present add nothing. *)
Lemma insert_rows_present articles :
  forall tx,
    (forall a, In a articles -> violates_unique a tx = true) ->
    insert_rows articles tx = tx.
Proof.
  induction articles as [|b rest IH]; intros tx H; [reflexivity|].
  rewrite insert_rows_cons.
  assert (insert_row tx b = tx) as ->.
  { unfold insert_row. cbn zeta.
    replace (violates_unique _ tx) with (violates_unique b tx);
      [rewrite H; [reflexivity|left; reflexivity]|reflexivity]. }
  apply IH. intros a Ha. apply H. right. exact Ha.
Qed.

Variable E : Env.

Lemma save_each_cases articles :
  forall tx w,
    db (snd (save_each E articles tx w)) = db w /\
    (fst (save_each E articles tx w) = Ret (insert_rows articles tx) \/
     fst (save_each E articles tx w) = Exit Fatal) /\
    ((forall n, db_fault E n = false) ->
     fst (save_each E articles tx w) = Ret (insert_rows articles tx)).
Proof.
  induction articles as [|a rest IH]; intros tx w.
  - cbn. auto.
  - rewrite insert_rows_cons. cbn [save_each]. unfold Exec_insert. unfold_prog.
    destruct (db_fault E (dbcalls w)) eqn:Hf; cbn.
    + repeat split; auto. intros H. rewrite H in Hf. discriminate.
    + unfold insert_row. cbn zeta.
      destruct (violates_unique _ tx); cbn;
        match goal with |- context [save_each E rest ?t ?w1] =>
          destruct (IH t w1) as (Hd & Ho & Hn) end;
        cbn [db] in Hd; auto.
Qed.

Lemma saveAllArticles_cases articles w :
  (fst (saveAllArticles E articles w) = Ret None /\
   db (snd (saveAllArticles E articles w)) = insert_rows articles (db w)) \/
  (fst (saveAllArticles E articles w) = Exit Fatal /\
   db (snd (saveAllArticles E articles w)) = db w).
Proof.
  unfold saveAllArticles. unfold_prog.
  destruct (db_fault E (dbcalls w)); cbn; [auto|].
  destruct (db_fault E (S (dbcalls w))); cbn; [auto|].
  match goal with |- context [save_each E articles ?t ?w1] =>
    destruct (save_each_cases articles t w1) as (Hd & Ho & _);
    destruct (save_each E articles t w1) as [o w2] end.
  cbn [fst snd db] in *.
  destruct Ho as [-> | ->]; [|auto].
  destruct (db_fault E (dbcalls w2)); cbn; auto.
Qed.


End SaveFacts.

(** ** Traces of the notify step *)

Section TraceFacts.

Variable E : Env.

Lemma notify_events_no_fetch t :
  Forall notify_event t ->
  existsb is_get t = false /\ existsb is_insert t = false.
Proof.
  induction 1 as [|e t [Hg Hi] _ [IHg IHi]]; cbn [existsb]; [auto|].
  rewrite Hg, Hi, IHg, IHi. auto.
Qed.

Lemma notifySlack_trace msg w :
  exists t,
    trace (snd (notifySlack E msg w)) = trace w ++ t /\ Forall notify_event t.
Proof.
  rewrite notifySlack_eq.
  destruct (http_Post E (posts w)) as [e|status]; cbn [snd trace].
  - exists [EvPost msg; EvFatal]. rewrite <- app_assoc.
    split; [reflexivity|]. repeat constructor.
  - destruct (status =? StatusOK).
    + exists [EvPost msg]. split; [reflexivity|]. repeat constructor.
    + exists [EvPost msg; EvPrintStatus status]. rewrite <- app_assoc.
      split; [reflexivity|]. repeat constructor.
Qed.

Lemma markAsRead_trace u w :
  exists t,
    trace (snd (markAsRead E u w)) = trace w ++ t /\ Forall notify_event t.
Proof.
  rewrite markAsRead_eq. cbn zeta.
  destruct (db_fault E (dbcalls w));
    [|destruct (db_fault E (1 + dbcalls w));
      [|destruct (db_fault E (2 + dbcalls w));
        [|destruct (db_fault E (3 + dbcalls w))]]];
    cbn [snd trace]; rewrite <- ?app_assoc;
    eexists; (split; [reflexivity|]); repeat constructor.
Qed.

Lemma notify_each_trace us :
  forall w,
  exists t,
    trace (snd (notify_each E us w)) = trace w ++ t /\ Forall notify_event t.
Proof.
  induction us as [|u rest IH]; intros w.
  - exists []. cbn. rewrite app_nil_r. split; [reflexivity|constructor].
  - rewrite notify_each_cons.
    destruct (notifySlack_trace u w) as (t1 & H1 & F1).
    destruct (notifySlack E u w) as [[e1|k1] w1]; cbn [snd] in H1.
    + destruct (markAsRead_trace u w1) as (t2 & H2 & F2).
      destruct (markAsRead E u w1) as [[e2|k2] w2]; cbn [snd] in H2.
      * destruct (IH w2) as (t3 & H3 & F3).
        exists (t1 ++ t2 ++ t3). rewrite H3, H2, H1, <- !app_assoc.
        split; [reflexivity|]. repeat (apply Forall_app; split); assumption.
      * exists (t1 ++ t2). cbn [snd]. rewrite H2, H1, <- !app_assoc.
        split; [reflexivity|]. apply Forall_app; split; assumption.
    + exists t1. cbn [snd]. auto.
Qed.

Lemma main_notify_trace w :
  exists t,
    trace (snd (main_notify E w)) = trace w ++ EvQuery :: t /\
    Forall notify_event t.
Proof.
  rewrite main_notify_eq. cbn zeta.
  destruct (db_fault E (dbcalls w)); cbn [snd trace].
  { exists [EvFatal]. rewrite <- app_assoc. split; [reflexivity|].
    repeat constructor. }
  destruct (_ <? 3); cbn [snd trace].
  { exists []. split; [reflexivity|constructor]. }
  match goal with |- context [notify_each E ?us ?w1] =>
    destruct (notify_each_trace us w1) as (t & Ht & Ft);
    destruct (notify_each E us w1) as [[[]|k] w2] end;
    cbn [snd trace] in *; rewrite Ht, <- ?app_assoc.
  - exists (t ++ [EvPrintFinish]). split; [reflexivity|].
    apply Forall_app; split; [assumption|repeat constructor].
  - exists t. split; [reflexivity|assumption].
Qed.

End TraceFacts.

(** ** The fetch pass *)

Section FetchFacts.

Variable E : Env.

Lemma parse_item_fatal it w :
  convertDate (li_date it) = None ->
  parse_item E it w =
  (Exit Fatal, mkWorld (db w) (trace w ++ [EvFatal]) (posts w) (dbcalls w)).
Proof.
  unfold convertDate, parse_item.
  destruct (GoTime.Parse_2006_01_02 (li_date it)); [discriminate|reflexivity].
Qed.

Lemma parse_item_world it w :
  db (snd (parse_item E it w)) = db w /\
  dbcalls (snd (parse_item E it w)) = dbcalls w.
Proof.
  unfold parse_item.
  destruct (GoTime.Parse_2006_01_02 (li_date it)); [|split; reflexivity].
  destruct (url_JoinPath E _ _); split; reflexivity.
Qed.

Lemma parse_items_fatal it items :
  In it items -> convertDate (li_date it) = None ->
  forall acc w,
    fst (parse_items E items acc w) = Exit Fatal /\
    db (snd (parse_items E items acc w)) = db w.
Proof.
  intros Hin Hbad. induction items as [|it' rest IH]; [contradiction|].
  intros acc w. cbn [parse_items]. unfold bind.
  destruct (parse_item_world it' w) as [Hd _].
  destruct Hin as [->|Hin].
  - rewrite parse_item_fatal by assumption. split; reflexivity.
  - destruct (parse_item E it' w) as [[a|k] w1] eqn:Hp; cbn [snd] in Hd.
    + rewrite <- Hd. apply IH, Hin.
    + unfold parse_item in Hp.
      destruct (GoTime.Parse_2006_01_02 (li_date it'));
        [destruct (url_JoinPath E _ _)|]; inversion Hp; split; reflexivity.
Qed.

Lemma fetch_non200 status body w :
  http_Get E = GetResponse status body ->
  status <> StatusOK ->
  fetchAllArticles E w =
  (Ret tt,
   mkWorld (db w) (trace w ++ [EvGet (baseURL E); EvPrintStatus status])
           (posts w) (dbcalls w)).
Proof.
  intros Hget Hst. unfold fetchAllArticles, Get. unfold_prog. rewrite Hget.
  apply Nat.eqb_neq in Hst. rewrite Hst. cbn. rewrite <- app_assoc.
  reflexivity.
Qed.

End FetchFacts.

(** ** What is left unread after the updates *)

Section UnreadFacts.

Lemma Permutation_filter_same (f : article -> bool) l l' :
  Permutation l l' -> Permutation (filter f l) (filter f l').
Proof.
  induction 1 as [|x l l' _ IH|x y l|l l' l'' _ IH1 _ IH2]; cbn.
  - constructor.
  - destruct (f x); [apply perm_skip|]; exact IH.
  - destruct (f x), (f y); try reflexivity. apply perm_swap.
  - etransitivity; eassumption.
Qed.

Lemma filter_unread_update u rows :
  filter unread (update_read u rows) =
  filter (not_among [u]) (filter unread rows).
Proof.
  unfold update_read, not_among.
  induction rows as [|a rows IH]; [reflexivity|].
  cbn [map filter existsb]. rewrite unread_set_read, IH.
  destruct (unread a) eqn:Hu; cbn [andb filter existsb];
    rewrite ?orb_false_r; [|reflexivity].
  unfold set_read. destruct (String.eqb (url a) u); reflexivity.
Qed.

Lemma filter_not_among u us rows :
  filter (not_among us) (filter (not_among [u]) rows) =
  filter (not_among (u :: us)) rows.
Proof.
  induction rows as [|a rows IH]; [reflexivity|].
  cbn [filter].
  assert (not_among (u :: us) a = not_among [u] a && not_among us a) as ->.
  { unfold not_among. cbn [existsb]. rewrite orb_false_r.
    destruct (String.eqb (url a) u); reflexivity. }
  destruct (not_among [u] a); cbn [andb filter];
    [destruct (not_among us a)|]; rewrite IH; reflexivity.
Qed.

Lemma filter_unread_marks us :
  forall rows,
    filter unread (marks us rows) = filter (not_among us) (filter unread rows).
Proof.
  induction us as [|u us IH]; intros rows.
  - cbn. unfold not_among. cbn.
    induction (filter unread rows) as [|a l IHl]; [reflexivity|].
    cbn. f_equal. exact IHl.
  - change (marks (u :: us) rows) with (marks us (update_read u rows)).
    rewrite IH, filter_unread_update. apply filter_not_among.
Qed.

Lemma set_read_other u a : url a <> u -> set_read u a = a.
Proof.
  intros H. unfold set_read. apply String.eqb_neq in H. rewrite H.
  reflexivity.
Qed.

Lemma set_read_same a : set_read (url a) a = as_read a.
Proof. unfold set_read. rewrite String.eqb_refl. reflexivity. Qed.

Lemma in_update_read u a rows :
  In a rows -> In (set_read u a) (update_read u rows).
Proof. apply in_map. Qed.

End UnreadFacts.

(** ** The rows the query puts first *)

Section SelectionFacts.



End SelectionFacts.

(** ** The loop as one update *)

Section LoopFacts.

Lemma not_among_as_read us a : not_among us (as_read a) = not_among us a.
Proof. reflexivity. Qed.

Lemma mark_among_set_read u us a :
  mark_among us (set_read u a) = mark_among (u :: us) a.
Proof.
  unfold mark_among, set_read, not_among. cbn [existsb].
  destruct (String.eqb (url a) u) eqn:Hu; cbn [url orb negb].
  - destruct (existsb (String.eqb (url a)) us); reflexivity.
  - reflexivity.
Qed.

Lemma marks_closed_form us :
  forall rows, marks us rows = map (mark_among us) rows.
Proof.
  induction us as [|u us IH]; intros rows.
  - cbn. symmetry. erewrite map_ext; [apply map_id|]. reflexivity.
  - change (marks (u :: us) rows) with (marks us (update_read u rows)).
    rewrite IH. unfold update_read. rewrite map_map.
    apply map_ext. intros a. apply mark_among_set_read.
Qed.

End LoopFacts.

(** ** The fetch pass, step by step *)

Section FetchSteps.

Variable E : Env.

Lemma calls_succeed_S n k :
  calls_succeed E n (S k) = negb (db_fault E n) && calls_succeed E (S n) k.
Proof.
  unfold calls_succeed. cbn [seq forallb]. rewrite Nat.add_0_r. f_equal.
  generalize 0 as a. induction k as [|k IH]; intros a; [reflexivity|].
  cbn [seq forallb]. rewrite IH, Nat.add_succ_r. reflexivity.
Qed.

Lemma calls_succeed_app n a b :
  calls_succeed E n (a + b) = calls_succeed E n a && calls_succeed E (n + a) b.
Proof.
  revert n. induction a as [|a IH]; intros n.
  - cbn [Nat.add]. rewrite Nat.add_0_r. reflexivity.
  - cbn [Nat.add]. rewrite !calls_succeed_S, IH, Nat.add_succ_r, andb_assoc.
    reflexivity.
Qed.

Lemma calls_succeed_all n k :
  (forall i, db_fault E i = false) -> calls_succeed E n k = true.
Proof.
  intros H. unfold calls_succeed. apply forallb_forall. intros i _.
  rewrite H. reflexivity.
Qed.

Lemma parse_item_eq it w :
  parse_item E it w =
  match article_of_item E it with
  | Some a => (Ret a, w)
  | None =>
      (Exit Fatal, mkWorld (db w) (trace w ++ [EvFatal]) (posts w) (dbcalls w))
  end.
Proof.
  unfold parse_item, article_of_item.
  destruct (GoTime.Parse_2006_01_02 (li_date it)); [|reflexivity].
  destruct (url_JoinPath E _ _); reflexivity.
Qed.

Lemma parse_items_eq items :
  forall acc w,
    parse_items E items acc w =
    match articles_of_items E items with
    | Some l => (Ret (acc ++ l), w)
    | None =>
        (Exit Fatal, mkWorld (db w) (trace w ++ [EvFatal]) (posts w) (dbcalls w))
    end.
Proof.
  induction items as [|it rest IH]; intros acc w.
  - cbn. rewrite app_nil_r. reflexivity.
  - cbn [parse_items articles_of_items]. unfold bind.
    rewrite parse_item_eq.
    destruct (article_of_item E it) as [a|]; [|reflexivity].
    rewrite IH.
    destruct (articles_of_items E rest); [|reflexivity].
    rewrite <- app_assoc. reflexivity.
Qed.

(** The INSERT loop: with all its calls succeeding it returns the rows of
    the transaction with the new ones appended, having executed the
    statement once per article; otherwise it is fatal and nothing of the
    world but the trace and the call counter has changed. *)
Lemma save_each_steps articles :
  forall tx w,
    if calls_succeed E (dbcalls w) (List.length articles)
    then save_each E articles tx w =
         (Ret (insert_rows articles tx),
          mkWorld (db w)
                  (trace w ++ map (fun a => EvExecInsert (row_of a)) articles)
                  (posts w) (dbcalls w + List.length articles))
    else fst (save_each E articles tx w) = Exit Fatal /\
         db (snd (save_each E articles tx w)) = db w /\
         posts (snd (save_each E articles tx w)) = posts w /\
         post_texts (trace (snd (save_each E articles tx w))) =
           post_texts (trace w).
Proof.
  induction articles as [|a rest IH]; intros tx w.
  - cbn. rewrite app_nil_r, Nat.add_0_r. destruct w; reflexivity.
  - cbn [List.length]. rewrite calls_succeed_S, insert_rows_cons.
    cbn [save_each map]. unfold Exec_insert. unfold_prog.
    destruct (db_fault E (dbcalls w)) eqn:Hf; cbn [negb andb].
    + cbn. rewrite !post_texts_app. cbn. rewrite !app_nil_r. auto.
    + unfold insert_row, row_of. cbn zeta.
      destruct (violates_unique _ tx) eqn:Hv;
        cbn -[insert_rows calls_succeed post_texts];
        match goal with |- context [save_each E rest ?t ?w1] =>
          specialize (IH t w1)
        end;
        cbn [dbcalls db trace posts] in IH;
        destruct (calls_succeed E (S (dbcalls w)) (List.length rest)).
      all: try (rewrite IH, <- app_assoc, Nat.add_succ_r; reflexivity).
      all: destruct IH as (Ho & Hd & Hp & Ht);
        rewrite Hd, Hp, Ht, post_texts_app; cbn; rewrite app_nil_r; auto.
Qed.

End FetchSteps.

Section SaveSteps.

Variable E : Env.

Lemma saveAllArticles_steps articles w :
  if calls_succeed E (dbcalls w) (List.length articles + 3)
  then saveAllArticles E articles w =
       (Ret None,
        mkWorld (insert_rows articles (db w))
                (trace w ++ map (fun a => EvExecInsert (row_of a)) articles)
                (posts w) (dbcalls w + (List.length articles + 3)))
  else fst (saveAllArticles E articles w) = Exit Fatal /\
       db (snd (saveAllArticles E articles w)) = db w /\
       posts (snd (saveAllArticles E articles w)) = posts w /\
       post_texts (trace (snd (saveAllArticles E articles w))) =
         post_texts (trace w).
Proof.
  replace (List.length articles + 3) with (S (S (List.length articles + 1)))
    by lia.
  rewrite !calls_succeed_S, calls_succeed_app, calls_succeed_S.
  unfold saveAllArticles. unfold_prog.
  destruct (db_fault E (dbcalls w)); cbn [negb andb].
  { cbn. rewrite post_texts_app. cbn. rewrite app_nil_r. auto. }
  cbn -[calls_succeed post_texts insert_rows].
  destruct (db_fault E (S (dbcalls w))); cbn [negb andb].
  { cbn. rewrite post_texts_app. cbn. rewrite app_nil_r. auto. }
  cbn -[calls_succeed post_texts insert_rows].
  match goal with |- context [save_each E articles ?t ?w1] =>
    pose proof (save_each_steps E articles t w1) as Hs
  end.
  cbn [dbcalls db trace posts] in Hs.
  destruct (calls_succeed E (S (S (dbcalls w))) (List.length articles));
    cbn [andb].
  - rewrite Hs. cbn -[calls_succeed post_texts insert_rows].
    match goal with |- context [db_fault E ?n] =>
      destruct (db_fault E n) end;
      cbn -[post_texts insert_rows].
    + rewrite !post_texts_app.
      assert (post_texts (map (fun a => EvExecInsert (row_of a)) articles) = [])
        as -> by (clear; induction articles; [reflexivity|assumption]).
      cbn. rewrite !app_nil_r. auto.
    + do 2 f_equal. f_equal. lia.
  - destruct Hs as (Ho & Hd & Hp & Ht).
    destruct (save_each E articles _ _) as [o w2]. cbn [fst snd] in *.
    subst o. cbn. auto.
Qed.

Lemma saveAllArticles_returns_nil articles w err w' :
  saveAllArticles E articles w = (Ret err, w') -> err = None.
Proof.
  intros H. destruct (saveAllArticles_cases E articles w) as [[Ho _]|[Ho _]];
    rewrite H in Ho; cbn in Ho; congruence.
Qed.

Lemma fetchAllArticles_eq w :
  fetchAllArticles E w =
  let w0 := mkWorld (db w) (trace w ++ [EvGet (baseURL E)]) (posts w) (dbcalls w) in
  let fatal := (Exit Fatal,
                mkWorld (db w) ((trace w ++ [EvGet (baseURL E)]) ++ [EvFatal])
                        (posts w) (dbcalls w)) in
  match http_Get E with
  | GetError _ => fatal
  | GetResponse status body =>
      if status =? StatusOK then
        match body with
        | None => fatal
        | Some doc =>
            match articles_of_items E (List.concat doc) with
            | None => fatal
            | Some articles =>
                match saveAllArticles E articles w0 with
                | (Ret _, w2) => (Ret tt, w2)
                | (Exit k, w2) => (Exit k, w2)
                end
            end
        end
      else
        (Ret tt,
         mkWorld (db w)
                 ((trace w ++ [EvGet (baseURL E)]) ++ [EvPrintStatus status])
                 (posts w) (dbcalls w))
  end.
Proof.
  unfold fetchAllArticles, Get. unfold_prog. cbn zeta.
  destruct (http_Get E) as [e|status body]; [reflexivity|].
  destruct (status =? StatusOK); cbn [negb]; [|reflexivity].
  destruct body as [doc|]; [|reflexivity].
  rewrite parse_items_eq.
  destruct (articles_of_items E (List.concat doc)) as [articles|];
    [|reflexivity].
  cbn [app].
  destruct (saveAllArticles E articles _) as [[err|k] w2] eqn:Hs;
    [|reflexivity].
  rewrite (saveAllArticles_returns_nil _ _ _ _ Hs). reflexivity.
Qed.

End SaveSteps.

(** ** What a save pass appends *)

Section AppendFacts.

Lemma violates_unique_row_of a rows :
  violates_unique (row_of a) rows = violates_unique a rows.
Proof. reflexivity. Qed.

Lemma insert_row_appends tx a :
  insert_row tx a = tx \/ insert_row tx a = tx ++ [row_of a].
Proof.
  unfold insert_row, row_of. cbn zeta.
  destruct (violates_unique _ tx); auto.
Qed.

Lemma insert_rows_appends articles :
  forall tx,
  exists added,
    insert_rows articles tx = tx ++ added /\
    Forall (fun row => exists a, In a articles /\ row = row_of a) added.
Proof.
  induction articles as [|a rest IH]; intros tx.
  - exists []. cbn. rewrite app_nil_r. auto.
  - rewrite insert_rows_cons.
    destruct (IH (insert_row tx a)) as (added & Heq & Hall).
    assert (Forall (fun row => exists b, In b (a :: rest) /\ row = row_of b) added)
      as Hall'.
    { eapply Forall_impl; [|exact Hall].
      intros row (b & Hb & ->). exists b. split; [right; exact Hb|reflexivity]. }
    rewrite Heq.
    destruct (insert_row_appends tx a) as [Hr|Hr]; rewrite Hr.
    + exists added. split; [reflexivity|exact Hall'].
    + exists (row_of a :: added). rewrite <- app_assoc.
      split; [reflexivity|]. constructor; [|exact Hall'].
      exists a. split; [left; reflexivity|reflexivity].
Qed.

Lemma insert_row_present tx a : violates_unique a (insert_row tx a) = true.
Proof.
  unfold insert_row. cbn zeta.
  destruct (violates_unique _ tx) eqn:Hv; [exact Hv|].
  rewrite violates_unique_app. cbn.
  unfold key_eqb. cbn [url title]. rewrite !String.eqb_refl.
  apply orb_true_r.
Qed.

Lemma insert_row_still_present tx a b :
  violates_unique a tx = true -> violates_unique a (insert_row tx b) = true.
Proof.
  intros H. destruct (insert_row_appends tx b) as [-> | ->]; [exact H|].
  rewrite violates_unique_app, H. reflexivity.
Qed.

Lemma insert_rows_still_present articles :
  forall tx a,
    violates_unique a tx = true ->
    violates_unique a (insert_rows articles tx) = true.
Proof.
  induction articles as [|b rest IH]; intros tx a H; [exact H|].
  rewrite insert_rows_cons. apply IH, insert_row_still_present, H.
Qed.

Lemma insert_rows_all_present articles :
  forall tx a,
    In a articles -> violates_unique a (insert_rows articles tx) = true.
Proof.
  induction articles as [|b rest IH]; intros tx a Ha; [contradiction|].
  rewrite insert_rows_cons. destruct Ha as [->|Ha].
  - apply insert_rows_still_present, insert_row_present.
  - apply IH, Ha.
Qed.

End AppendFacts.

(** ** What a whole run does to the table *)

Section RunFacts.

Variable E : Env.

Lemma fetch_db_effect w :
  exists articles, db (snd (fetchAllArticles E w)) = insert_rows articles (db w).
Proof.
  rewrite fetchAllArticles_eq. cbn zeta.
  destruct (http_Get E) as [e|status body]; [exists []; reflexivity|].
  destruct (status =? StatusOK); [|exists []; reflexivity].
  destruct body as [doc|]; [|exists []; reflexivity].
  destruct (articles_of_items E (List.concat doc)) as [articles|];
    [|exists []; reflexivity].
  match goal with |- context [saveAllArticles E articles ?w0] =>
    destruct (saveAllArticles_cases E articles w0) as [[Ho Hd]|[Ho Hd]];
    destruct (saveAllArticles E articles w0) as [o w2]
  end; cbn [fst snd db] in *; subst o; cbn [snd].
  - exists articles. exact Hd.
  - exists []. exact Hd.
Qed.

Lemma main_notify_db_effect w :
  exists done, db (snd (main_notify E w)) = marks done (db w).
Proof.
  rewrite main_notify_eq. cbn zeta.
  destruct (db_fault E (dbcalls w)); [exists []; reflexivity|].
  destruct (_ <? 3); [exists []; reflexivity|].
  destruct (notify_each E _ _) as [o w2] eqn:Hl.
  destruct (notify_each_effect _ _ _ _ _ Hl) as (marked & _ & Hd & _).
  exists marked. cbn [db] in Hd. destruct o as [[]|k]; exact Hd.
Qed.

Lemma main_db_effect w :
  exists articles done,
    db (snd (main E w)) = marks done (insert_rows articles (db w)).
Proof.
  rewrite main_eq. destruct (Weekday_eqb (now_weekday E) Friday).
  - destruct (main_notify_db_effect w) as (done & H).
    exists [], done. exact H.
  - destruct (fetch_db_effect w) as (articles & Hf).
    destruct (fetchAllArticles E w) as [[[]|k] w1]; cbn [snd] in Hf.
    + destruct (main_notify_db_effect w1) as (done & H).
      exists articles, done. rewrite H, Hf. reflexivity.
    + exists articles, []. exact Hf.
Qed.

End RunFacts.

Section KeepFacts.

Lemma keeps_rows_refl l : keeps_rows l l.
Proof.
  intros i a H. exists a. unfold keeps_row. auto.
Qed.

Lemma keeps_rows_trans l1 l2 l3 :
  keeps_rows l1 l2 -> keeps_rows l2 l3 -> keeps_rows l1 l3.
Proof.
  intros H12 H23 i a Ha.
  destruct (H12 i a Ha) as (b & Hb & Kab).
  destruct (H23 i b Hb) as (c & Hc & Kbc).
  exists c. split; [exact Hc|]. unfold keeps_row in *.
  intuition congruence.
Qed.

Lemma keeps_rows_app l added : keeps_rows l (l ++ added).
Proof.
  intros i a H. exists a. split; [|unfold keeps_row; auto].
  rewrite nth_error_app1; [exact H|].
  apply nth_error_Some. congruence.
Qed.

Lemma keeps_row_set_read u a : keeps_row a (set_read u a).
Proof.
  unfold keeps_row, set_read.
  destruct (String.eqb (url a) u); cbn; auto.
Qed.

Lemma keeps_rows_update u l : keeps_rows l (update_read u l).
Proof.
  intros i a H. exists (set_read u a). split; [|apply keeps_row_set_read].
  unfold update_read. rewrite nth_error_map, H. reflexivity.
Qed.

Lemma keeps_rows_marks us : forall l, keeps_rows l (marks us l).
Proof.
  induction us as [|u us IH]; intros l; [apply keeps_rows_refl|].
  change (marks (u :: us) l) with (marks us (update_read u l)).
  eapply keeps_rows_trans; [apply keeps_rows_update|apply IH].
Qed.

Lemma violates_unique_update a u l :
  violates_unique a (update_read u l) = violates_unique a l.
Proof.
  unfold violates_unique, update_read.
  induction l as [|b l IH]; [reflexivity|].
  cbn [map existsb]. rewrite IH. f_equal.
  unfold key_eqb. rewrite url_set_read.
  unfold set_read. destruct (String.eqb (url b) u); reflexivity.
Qed.

Lemma unique_keys_update u l : unique_keys l -> unique_keys (update_read u l).
Proof.
  induction l as [|a l IH]; [trivial|].
  cbn [unique_keys update_read map]. intros [Ha Hl]. split; [|apply IH, Hl].
  change (map (set_read u) l) with (update_read u l).
  rewrite violates_unique_update, <- Ha.
  unfold set_read. destruct (String.eqb (url a) u); reflexivity.
Qed.

Lemma unique_keys_marks us : forall l, unique_keys l -> unique_keys (marks us l).
Proof.
  induction us as [|u us IH]; intros l H; [exact H|].
  change (marks (u :: us) l) with (marks us (update_read u l)).
  apply IH, unique_keys_update, H.
Qed.

End KeepFacts.

(** ** How far the loop gets *)

Section ProgressFacts.

Variable E : Env.


Lemma markAsRead_fatal u w :
  calls_succeed E (dbcalls w) 4 = false ->
  fst (markAsRead E u w) = Exit Fatal /\
  db (snd (markAsRead E u w)) = db w /\
  post_texts (trace (snd (markAsRead E u w))) = post_texts (trace w).
Proof.
  rewrite markAsRead_eq. unfold calls_succeed. cbn [seq forallb].
  rewrite Nat.add_0_r, !(Nat.add_comm (dbcalls w)). cbn zeta.
  destruct (db_fault E (dbcalls w));
    [|destruct (db_fault E (1 + dbcalls w));
      [|destruct (db_fault E (2 + dbcalls w));
        [|destruct (db_fault E (3 + dbcalls w))]]];
    cbn [negb andb fst snd db trace]; try discriminate; intros _;
    rewrite !post_texts_app; cbn; rewrite ?app_nil_r; auto.
Qed.

End ProgressFacts.

(** ** [strings.Replace] with a count of one *)

Section ReplaceFacts.
Import GoStrings.

Lemma hasPrefix_app old s : hasPrefix old (old ++ s) = true.
Proof.
  induction old as [|c old IH]; [reflexivity|].
  cbn. rewrite Ascii.eqb_refl. exact IH.
Qed.

Lemma dropn_app old s : dropn (String.length old) (old ++ s) = s.
Proof.
  induction old as [|c old IH]; [destruct s; reflexivity|exact IH].
Qed.

Lemma hasPrefix_length old :
  forall s, hasPrefix old s = true -> String.length old <= String.length s.
Proof.
  induction old as [|c old IH]; intros s H; [cbn; lia|].
  destruct s as [|c' s]; [discriminate|].
  cbn in H. apply andb_prop in H. destruct H as [_ H].
  cbn. apply IH in H. lia.
Qed.

Lemma dropn_length n :
  forall s, n <= String.length s ->
            String.length (dropn n s) + n = String.length s.
Proof.
  induction n as [|n IH]; intros s H.
  - destruct s; cbn; lia.
  - destruct s as [|c s]; cbn in *; [lia|]. rewrite <- (IH s); lia.
Qed.

End ReplaceFacts.

(** ** Stored dates in text order *)

Section DateOrder.
Import GoTime.

Lemma Ascii_compare_digitChar a b :
  a < 10 -> b < 10 ->
  Ascii.compare (digitChar a) (digitChar b) = Nat.compare a b.
Proof.
  intros Ha Hb. unfold Ascii.compare, digitChar, ascii_of_nat.
  rewrite !N_ascii_embedding by lia.
  destruct (N.compare_spec (N.of_nat (48 + a)) (N.of_nat (48 + b))),
           (Nat.compare_spec a b); try reflexivity; lia.
Qed.

Lemma dashed_dash_text y m d :
  dashed y m d =
  dash_text (digitChar (y / 1000 mod 10)) (digitChar (y / 100 mod 10))
            (digitChar (y / 10 mod 10)) (digitChar (y mod 10))
            (digitChar (m / 10 mod 10)) (digitChar (m mod 10))
            (digitChar (d / 10 mod 10)) (digitChar (d mod 10)).
Proof. reflexivity. Qed.

(** Texts of eight digits with the dashes in place compare as the numbers
    the digits spell. *)
Lemma leb_dash_text a b c e f g h i a' b' c' e' f' g' h' i' :
  a < 10 -> b < 10 -> c < 10 -> e < 10 ->
  f < 10 -> g < 10 -> h < 10 -> i < 10 ->
  a' < 10 -> b' < 10 -> c' < 10 -> e' < 10 ->
  f' < 10 -> g' < 10 -> h' < 10 -> i' < 10 ->
  String.leb
    (dash_text (digitChar a) (digitChar b) (digitChar c) (digitChar e)
               (digitChar f) (digitChar g) (digitChar h) (digitChar i))
    (dash_text (digitChar a') (digitChar b') (digitChar c') (digitChar e')
               (digitChar f') (digitChar g') (digitChar h') (digitChar i')) =
  (date_number (digits4 a b c e) (f * 10 + g) (h * 10 + i) <=?
   date_number (digits4 a' b' c' e') (f' * 10 + g') (h' * 10 + i')).
Proof.
  intros.
  unfold String.leb, dash_text. cbn [String.compare].
  rewrite !Ascii_compare_digitChar by assumption.
  change (Ascii.compare "-" "-") with Eq. cbn iota.
  unfold date_number, digits4.
  destruct (Nat.compare_spec a a');
    [destruct (Nat.compare_spec b b');
     [destruct (Nat.compare_spec c c');
      [destruct (Nat.compare_spec e e');
       [destruct (Nat.compare_spec f f');
        [destruct (Nat.compare_spec g g');
         [destruct (Nat.compare_spec h h');
          [destruct (Nat.compare_spec i i')|..]|..]|..]|..]|..]|..]|..];
    symmetry; first [apply Nat.leb_le; lia | apply Nat.leb_gt; lia].
Qed.

End DateOrder.


(** ** Small facts used by the claims *)

Section ClaimFacts.

Lemma not_among_spec us a : not_among us a = true <-> ~ In (url a) us.
Proof.
  unfold not_among. rewrite negb_true_iff. split.
  - intros H Hin. apply not_true_iff_false in H. apply H.
    apply existsb_exists. exists (url a). split; [exact Hin|].
    apply String.eqb_refl.
  - intros H. apply not_true_iff_false. intros Hex.
    apply existsb_exists in Hex. destruct Hex as (u & Hu & He).
    apply String.eqb_eq in He. subst u. contradiction.
Qed.

Lemma mark_among_listed us a : In (url a) us -> mark_among us a = as_read a.
Proof.
  intros H. unfold mark_among.
  destruct (not_among us a) eqn:Hn; [|reflexivity].
  apply not_among_spec in Hn. contradiction.
Qed.

Lemma mark_among_other us a : ~ In (url a) us -> mark_among us a = a.
Proof.
  intros H. unfold mark_among. apply not_among_spec in H. rewrite H.
  reflexivity.
Qed.

Lemma insert_events_post_nothing articles :
  post_texts (map (fun a => EvExecInsert (row_of a)) articles) = [].
Proof. induction articles; [reflexivity|assumption]. Qed.

(** The fetch pass sends nothing to the webhook. *)
Lemma fetch_posts_nothing E w :
  post_texts (trace (snd (fetchAllArticles E w))) = post_texts (trace w).
Proof.
  rewrite fetchAllArticles_eq. cbn zeta.
  assert (forall t, post_texts t = [] ->
                    post_texts ((trace w ++ [EvGet (baseURL E)]) ++ t) =
                    post_texts (trace w)) as Ht.
  { intros t H. rewrite !post_texts_app, H. cbn. rewrite !app_nil_r.
    reflexivity. }
  destruct (http_Get E) as [e|status body];
    [|destruct (status =? StatusOK);
      [destruct body as [doc|];
       [destruct (articles_of_items E (List.concat doc)) as [articles|]|]|]].
  1,3,4,5: cbn [snd trace]; apply Ht; reflexivity.
  match goal with |- context [saveAllArticles E articles ?w0] =>
    pose proof (saveAllArticles_steps E articles w0) as Hs;
    destruct (calls_succeed E (dbcalls w0) (List.length articles + 3))
  end.
  - rewrite Hs. cbn [snd trace]. apply Ht, insert_events_post_nothing.
  - destruct Hs as (_ & _ & _ & Hq).
    destruct (saveAllArticles E articles _) as [[err|k] w2];
      cbn [snd trace] in *; rewrite Hq; cbn [trace];
      rewrite post_texts_app; apply app_nil_r.
Qed.

End ClaimFacts.

(** [iso y m d] proves that a literal text is the stored form of the date
    [y-m-d]. *)
Ltac iso y m d :=
  exists y, m, d; split;
  [unfold GoTime.validDate; cbn; lia | reflexivity].

(** ** Tables whose dates are in the stored form *)

Section IsoFacts.

Lemma dashed_leb_date_number y m d y' m' d' :
  GoTime.validDate y m d -> GoTime.validDate y' m' d' ->
  String.leb (GoTime.dashed y m d) (GoTime.dashed y' m' d') =
  (date_number y m d <=? date_number y' m' d').
Proof.
  intros (Hy & Hm & Hd) (Hy' & Hm' & Hd').
  pose proof (daysIn_le_31 m y). pose proof (daysIn_le_31 m' y').
  rewrite !dashed_dash_text, leb_dash_text
    by (apply Nat.mod_upper_bound; discriminate).
  replace (GoTime.digits4 (y / 1000 mod 10) (y / 100 mod 10) (y / 10 mod 10)
             (y mod 10)) with y by (unfold GoTime.digits4; lia).
  replace (GoTime.digits4 (y' / 1000 mod 10) (y' / 100 mod 10) (y' / 10 mod 10)
             (y' mod 10)) with y' by (unfold GoTime.digits4; lia).
  replace (m / 10 mod 10 * 10 + m mod 10) with m by lia.
  replace (m' / 10 mod 10 * 10 + m' mod 10) with m' by lia.
  replace (d / 10 mod 10 * 10 + d mod 10) with d by lia.
  replace (d' / 10 mod 10 * 10 + d' mod 10) with d' by lia.
  reflexivity.
Qed.


Lemma five_shared_iso : Forall (fun a => iso_date (date a)) Examples.five_shared.
Proof.
  repeat constructor; cbn [date Examples.row];
    [iso 2023 1 1|iso 2023 1 2|iso 2023 1 3|iso 2023 1 4|iso 2023 1 5].
Qed.

End IsoFacts.
(** * The claims *)

(** C1, on the code.  The webhook answers 500 to every POST: [notifySlack]
    prints the status and returns nil, so [main] goes on to [markAsRead];
    the run ends normally with the three rows marked read. *)
Theorem non200_still_marks_read :
  let E := Examples.env Friday (GetError "unused") 500 in
  let w := Examples.start Examples.three in
  fst (notifySlack E "https://blog.example/a" w) = Ret None /\
  fst (main E w) = Ret tt /\
  map read (db (snd (main E w))) = [true; true; true] /\
  trace (snd (main E w)) =
    [EvQuery;
     EvPost "https://blog.example/a"; EvPrintStatus 500;
     EvExecUpdate "https://blog.example/a";
     EvPost "https://blog.example/b"; EvPrintStatus 500;
     EvExecUpdate "https://blog.example/b";
     EvPost "https://blog.example/c"; EvPrintStatus 500;
     EvExecUpdate "https://blog.example/c";
     EvPrintFinish].
Proof.
  cbn zeta. repeat split; reflexivity.
Qed.

(** C2, on the code.  One unread row in the table and everything else in
    order: the run panics at [urls[:3]] right after the query, posts
    nothing and leaves the row unread. *)
Theorem one_unread_row_is_not_notified :
  let E := Examples.env Friday (GetError "unused") 200 in
  let w := Examples.start [Examples.row "a" "2023-01-01"] in
  select_unread_urls (db w) = ["https://blog.example/a"] /\
  main E w =
  (Exit Panic, mkWorld [Examples.row "a" "2023-01-01"] [EvQuery] 0 1).
Proof.
  cbn zeta. split; reflexivity.
Qed.



(** C4, as the code has it.  For an entry whose date text is [YYYY.MM.DD]
    for a day of the calendar, the callback of [fetchAllArticles] builds
    the article with the date [YYYY-MM-DD] of the same digits (or is fatal
    when the url cannot be joined); for an entry with any other date text
    it calls [log.Fatal]; and a listing page that contains such an entry
    ends the process before anything is stored. *)
Theorem calendar_date_converted_or_fatal E it w :
  (forall y m d,
      GoTime.validDate y m d ->
      li_date it = GoTime.dotted y m d ->
      parse_item E it w =
      match url_JoinPath E (baseURL E)
              (GoStrings.RemoveFirst (li_href it) "/articles/") with
      | Some endpoint =>
          (Ret (mkArticle (li_title it) endpoint (GoTime.dashed y m d) false), w)
      | None => (Exit Fatal, after_Fatal w)
      end) /\
  (~ wellFormedDate (li_date it) ->
   parse_item E it w = (Exit Fatal, after_Fatal w)) /\
  (forall doc,
      http_Get E = GetResponse StatusOK (Some doc) ->
      In it (List.concat doc) ->
      ~ wellFormedDate (li_date it) ->
      fst (fetchAllArticles E w) = Exit Fatal /\
      db (snd (fetchAllArticles E w)) = db w).
Proof.
  assert (~ wellFormedDate (li_date it) -> convertDate (li_date it) = None)
    as Hbad.
  { intros H. unfold convertDate.
    destruct (GoTime.Parse_2006_01_02 (li_date it)) as [t|] eqn:Hp;
      [|reflexivity].
    exfalso. apply H. apply Parse_sound in Hp. destruct Hp as [Hv Ht].
    exists (GoTime.Year t), (GoTime.Month t), (GoTime.Day t). auto. }
  split; [|split].
  - intros y m d Hv Hdate. unfold parse_item.
    rewrite Hdate, (Parse_dotted _ _ _ Hv). cbn zeta.
    destruct (url_JoinPath E _ _); reflexivity.
  - intros H. apply parse_item_fatal, Hbad, H.
  - intros doc Hget Hin H. apply Hbad in H.
    unfold fetchAllArticles, Get. unfold_prog. rewrite Hget. cbn.
    match goal with |- context [parse_items E ?items ?acc ?w1] =>
      destruct (parse_items_fatal E it items Hin H acc w1) as [Ho Hd];
      destruct (parse_items E items acc w1) as [o w2] end.
    cbn [fst snd db] in *. subst o. split; [reflexivity|exact Hd].
Qed.

Lemma calendar_date_converted_or_fatal_witness :
  let E := Examples.env Monday (GetResponse 200 (Some Examples.bad_page)) 200 in
  let w := Examples.start Examples.three in
  parse_item E (mkListItem "/articles/foo" "Foo" "2024.02.29") w =
    (Ret (mkArticle "Foo" "https://blog.example/foo" "2024-02-29" false), w) /\
  parse_item E (mkListItem "/articles/foo" "Foo" "2023.6.20") w =
    (Exit Fatal, after_Fatal w) /\
  fst (fetchAllArticles E w) = Exit Fatal.
Proof.
  intros E w.
  assert (forall text, String.length text <> 10 -> ~ wellFormedDate text)
    as Hlen.
  { intros text Hl (y & m & d & _ & H). apply Hl. rewrite H. reflexivity. }
  split; [|split].
  - destruct (calendar_date_converted_or_fatal
                E (mkListItem "/articles/foo" "Foo" "2024.02.29") w)
      as (H & _ & _).
    rewrite (H 2024 2 29); [reflexivity| |reflexivity].
    unfold GoTime.validDate. cbn. lia.
  - destruct (calendar_date_converted_or_fatal
                E (mkListItem "/articles/foo" "Foo" "2023.6.20") w)
      as (_ & H & _).
    apply H. apply Hlen. cbn. discriminate.
  - destruct (calendar_date_converted_or_fatal
                E (mkListItem "/articles/foo" "Foo" "2023.6.20") w)
      as (_ & _ & H).
    apply (H Examples.bad_page).
    + reflexivity.
    + left. reflexivity.
    + apply Hlen. cbn. discriminate.
Defined.

(** C4, counterexample.  The text 2023.02.30 has the form [YYYY.MM.DD],
    and it is not converted to 2023-02-30: the entry is fatal. *)
Lemma date_form_counterexample :
  let E := Examples.env Monday (GetError "unused") 200 in
  let w := Examples.start Examples.three in
  let it := mkListItem "/articles/foo" "Foo" "2023.02.30" in
  hasDateForm (li_date it) /\
  parse_item E it w = (Exit Fatal, after_Fatal w) /\
  ~ (exists a, fst (parse_item E it w) = Ret a).
Proof.
  cbn zeta. split; [|split].
  - exists "2"%char, "0"%char, "2"%char, "3"%char,
           "0"%char, "2"%char, "3"%char, "0"%char.
    split; reflexivity.
  - reflexivity.
  - intros (a & H). discriminate H.
Qed.

(** The notify step on five unread rows dated 2023-01-01 to 2023-01-05,
    the last two with urls of their own, when nothing fails. *)
Lemma notify_step_on_five_unread E w r1 r2 r3 r4 r5 :
  date r1 = "2023-01-01" -> date r2 = "2023-01-02" -> date r3 = "2023-01-03" ->
  date r4 = "2023-01-04" -> date r5 = "2023-01-05" ->
  Permutation (filter unread (db w)) [r1; r2; r3; r4; r5] ->
  ~ In (url r4) [url r1; url r2; url r3] ->
  ~ In (url r5) [url r1; url r2; url r3] ->
  (forall n, http_Post E n = PostResponse StatusOK) ->
  (forall n, db_fault E n = false) ->
  let w' := snd (main_notify E w) in
  fst (main_notify E w) = Ret tt /\
  post_texts (trace w') = post_texts (trace w) ++ [url r1; url r2; url r3] /\
  (In (as_read r1) (db w') /\ In (as_read r2) (db w') /\ In (as_read r3) (db w')) /\
  (In r4 (db w') /\ In r5 (db w')) /\
  Permutation (filter unread (db w')) [r4; r5].
Proof.
  intros D1 D2 D3 D4 D5 Hperm H4 H5 Hpost Hdb.
  assert (select_unread (db w) = [r1; r2; r3; r4; r5]) as Hsel.
  { unfold select_unread. apply order_by_date_unique; [exact Hperm|].
    repeat constructor;
      unfold date_lt; rewrite ?D1, ?D2, ?D3, ?D4, ?D5; reflexivity. }
  assert (forall r, In r [r1; r2; r3; r4; r5] -> In r (db w)) as Hin.
  { intros r Hr. apply Permutation_sym in Hperm.
    apply (Permutation_in _ Hperm) in Hr. apply filter_In in Hr. tauto. }
  cbn zeta. rewrite main_notify_eq. cbn zeta. rewrite Hdb.
  unfold select_unread_urls. rewrite Hsel.
  cbn [map List.length Nat.ltb Nat.leb firstn].
  set (us := [url r1; url r2; url r3]) in *.
  match goal with |- context [notify_each E us ?w1] =>
    pose proof (notify_each_completes E us Hdb
                  (fun n => ex_intro _ StatusOK (Hpost n)) w1) as Hret;
    destruct (notify_each E us w1) as [o w2] eqn:Hloop
  end.
  cbn [fst] in Hret. subst o.
  destruct (notify_each_effect _ _ _ _ _ Hloop)
    as (marked & posted & Hd & Hp & _ & _ & Hall).
  destruct (Hall eq_refl) as [-> ->]. cbn [db trace] in Hd, Hp.
  cbn [fst snd db trace]. rewrite post_texts_app, Hp, post_texts_app.
  cbn [post_texts flat_map app]. rewrite !app_nil_r, Hd.
  split; [reflexivity|]. split; [reflexivity|].
  assert (In (url r1) us /\ In (url r2) us /\ In (url r3) us)
    as (I1 & I2 & I3) by (unfold us; cbn; tauto).
  split; [|split].
  - rewrite marks_closed_form.
    rewrite <- (mark_among_listed us r1 I1), <- (mark_among_listed us r2 I2),
      <- (mark_among_listed us r3 I3).
    repeat split; apply in_map; apply Hin; cbn; tauto.
  - rewrite marks_closed_form.
    split; [rewrite <- (mark_among_other us r4 H4) at 1
           |rewrite <- (mark_among_other us r5 H5) at 1];
      apply in_map; apply Hin; cbn; tauto.
  - rewrite filter_unread_marks.
    rewrite (Permutation_filter_same _ _ _ Hperm).
    cbn [filter].
    apply not_among_spec in H4, H5. rewrite H4, H5.
    assert (forall r, In (url r) us -> not_among us r = false) as Hno.
    { intros r Hr. destruct (not_among us r) eqn:Hn; [|reflexivity].
      apply not_among_spec in Hn. contradiction. }
    rewrite (Hno r1 I1), (Hno r2 I2), (Hno r3 I3). reflexivity.
Qed.

(** C5, as the code has it.  The run reaches its unread query on a Friday
    with the table it found, on another day with the table its fetch pass
    returned.  When the unread rows of that table are five rows dated
    2023-01-01 to 2023-01-05, the urls of the rows dated 04 and 05 are not
    urls of the rows dated 01, 02 and 03, every POST is answered with 200
    and no database call fails, the run ends normally after exactly three
    POSTs, for the rows dated 01, 02 and 03 in that order; afterwards those
    three rows are read and the unread rows are the rows dated 04 and 05,
    unchanged. *)
Theorem five_unread_three_notified E w w1 r1 r2 r3 r4 r5 :
  (now_weekday E = Friday /\ w1 = w) \/
  (now_weekday E <> Friday /\ fetchAllArticles E w = (Ret tt, w1)) ->
  date r1 = "2023-01-01" -> date r2 = "2023-01-02" -> date r3 = "2023-01-03" ->
  date r4 = "2023-01-04" -> date r5 = "2023-01-05" ->
  Permutation (filter unread (db w1)) [r1; r2; r3; r4; r5] ->
  ~ In (url r4) [url r1; url r2; url r3] ->
  ~ In (url r5) [url r1; url r2; url r3] ->
  (forall n, http_Post E n = PostResponse StatusOK) ->
  (forall n, db_fault E n = false) ->
  let w' := snd (main E w) in
  fst (main E w) = Ret tt /\
  post_texts (trace w') = post_texts (trace w) ++ [url r1; url r2; url r3] /\
  (In (as_read r1) (db w') /\ In (as_read r2) (db w') /\ In (as_read r3) (db w')) /\
  (In r4 (db w') /\ In r5 (db w')) /\
  Permutation (filter unread (db w')) [r4; r5].
Proof.
  intros Hstart D1 D2 D3 D4 D5 Hperm H4 H5 Hpost Hdb.
  assert (main E w = main_notify E w1 /\
          post_texts (trace w1) = post_texts (trace w)) as [Hmain Htrace].
  { rewrite main_eq. destruct Hstart as [[Hday ->]|[Hday Hfetch]].
    - rewrite Hday. split; reflexivity.
    - pose proof (fetch_posts_nothing E w) as Hp. rewrite Hfetch in *.
      cbn [snd] in Hp. split; [|exact Hp].
      destruct (now_weekday E); try reflexivity. contradiction. }
  cbn zeta. rewrite Hmain, <- Htrace.
  exact (notify_step_on_five_unread E w1 r1 r2 r3 r4 r5
           D1 D2 D3 D4 D5 Hperm H4 H5 Hpost Hdb).
Qed.

Lemma five_unread_three_notified_witness :
  (let E := Examples.env Friday (GetError "unused") 200 in
   let w' := snd (main E (Examples.start Examples.five)) in
   fst (main E (Examples.start Examples.five)) = Ret tt /\
   post_texts (trace w') =
     ["https://blog.example/a"; "https://blog.example/b";
      "https://blog.example/c"] /\
   Permutation (filter unread (db w'))
     [Examples.row "d" "2023-01-04"; Examples.row "e" "2023-01-05"]) /\
  (let E := Examples.env Monday (GetResponse 503 None) 200 in
   post_texts (trace (snd (main E (Examples.start Examples.five)))) =
     ["https://blog.example/a"; "https://blog.example/b";
      "https://blog.example/c"]).
Proof.
  assert (Permutation (filter unread Examples.five)
            [Examples.row "a" "2023-01-01"; Examples.row "b" "2023-01-02";
             Examples.row "c" "2023-01-03"; Examples.row "d" "2023-01-04";
             Examples.row "e" "2023-01-05"]) as Hperm.
  { change (Permutation (filter unread Examples.five)
              (order_by_date (filter unread Examples.five))).
    apply order_by_date_perm. }
  assert (forall u, In u ["https://blog.example/d"; "https://blog.example/e"] ->
                    ~ In u ["https://blog.example/a"; "https://blog.example/b";
                            "https://blog.example/c"]) as Hother.
  { intros u [<-|[<-|[]]]; cbn; intuition discriminate. }
  split.
  - intros E w'.
    destruct (five_unread_three_notified
                E (Examples.start Examples.five) (Examples.start Examples.five)
                (Examples.row "a" "2023-01-01") (Examples.row "b" "2023-01-02")
                (Examples.row "c" "2023-01-03") (Examples.row "d" "2023-01-04")
                (Examples.row "e" "2023-01-05")
                (or_introl (conj eq_refl eq_refl))
                eq_refl eq_refl eq_refl eq_refl eq_refl Hperm
                (Hother _ (or_introl eq_refl))
                (Hother _ (or_intror (or_introl eq_refl)))
                (fun n => eq_refl) (fun n => eq_refl))
      as (Hret & Hposts & _ & _ & Hleft).
    split; [exact Hret|]. split; [exact Hposts|exact Hleft].
  - intros E.
    assert (now_weekday E <> Friday) as Hday by discriminate.
    destruct (five_unread_three_notified
                E (Examples.start Examples.five)
                (snd (fetchAllArticles E (Examples.start Examples.five)))
                (Examples.row "a" "2023-01-01") (Examples.row "b" "2023-01-02")
                (Examples.row "c" "2023-01-03") (Examples.row "d" "2023-01-04")
                (Examples.row "e" "2023-01-05")
                (or_intror (conj Hday eq_refl))
                eq_refl eq_refl eq_refl eq_refl eq_refl Hperm
                (Hother _ (or_introl eq_refl))
                (Hother _ (or_intror (or_introl eq_refl)))
                (fun n => eq_refl) (fun n => eq_refl))
      as (_ & Hposts & _).
    exact Hposts.
Defined.

(** C5, counterexample.  Three runs in which the store contains exactly
    five unread rows dated 2023-01-01 to 2023-01-05 and the webhook answers
    200 every time.  (1) The rows dated 01 and 04 have the same url: the
    run posts for 01, 02, 03 and ends normally, and the row dated 04 is
    read as well.  (2) The storage fails: the run ends at the query, with
    no POST at all.  (3) The run is on a Monday and the listing shows an
    entry dated 2022-12-31: the run posts for that entry and for 01 and 02,
    and the row dated 03 stays unread. *)
Lemma five_unread_counterexample :
  (let E := Examples.env Friday (GetError "unused") 200 in
   let w := Examples.start Examples.five_shared in
   let w' := snd (main E w) in
   filter unread (db w) = db w /\
   map date (db w) =
     ["2023-01-01"; "2023-01-02"; "2023-01-03"; "2023-01-04"; "2023-01-05"] /\
   (forall n, http_Post E n = PostResponse 200) /\
   fst (main E w) = Ret tt /\
   map date (db w') = map date (db w) /\
   map read (db w') = [true; true; true; true; false] /\
   ~ (map read (db w') = [true; true; true; false; false])) /\
  (let E := Examples.env_storage_down Friday (GetError "unused") 200 in
   let w := Examples.start Examples.five in
   (forall n, http_Post E n = PostResponse 200) /\
   fst (main E w) = Exit Fatal /\
   post_texts (trace (snd (main E w))) = [] /\
   ~ (List.length (post_texts (trace (snd (main E w)))) = 3)) /\
  (let E := Examples.env Monday (GetResponse 200 (Some Examples.old_page)) 200 in
   let w := Examples.start Examples.five in
   let w' := snd (main E w) in
   filter unread (db w) = db w /\
   (forall n, http_Post E n = PostResponse 200) /\
   (forall n, db_fault E n = false) /\
   fst (main E w) = Ret tt /\
   post_texts (trace w') =
     ["https://blog.example/old"; "https://blog.example/a";
      "https://blog.example/b"] /\
   In (Examples.row "c" "2023-01-03") (db w') /\
   ~ (post_texts (trace w') =
        ["https://blog.example/a"; "https://blog.example/b";
         "https://blog.example/c"])).
Proof.
  split; [|split]; cbn zeta.
  - split; [reflexivity|]. split; [reflexivity|].
    split; [intros n; reflexivity|]. split; [vm_compute; reflexivity|].
    split; [vm_compute; reflexivity|]. split; [vm_compute; reflexivity|].
    vm_compute. discriminate.
  - split; [intros n; reflexivity|]. split; [vm_compute; reflexivity|].
    split; [vm_compute; reflexivity|]. vm_compute. discriminate.
  - split; [reflexivity|]. split; [intros n; reflexivity|].
    split; [intros n; reflexivity|]. split; [vm_compute; reflexivity|].
    split; [vm_compute; reflexivity|].
    split; [vm_compute; tauto|]. vm_compute. discriminate.
Qed.

(** On a Friday the run is the notify step and nothing else: its
    trace begins with the unread query and contains no GET of the listing
    URL and no execution of the INSERT statement, and the table the query
    sees is the table the run started with. *)
Theorem friday_skips_fetch E w :
  now_weekday E = Friday ->
  main E w = main_notify E w /\
  exists t,
    trace (snd (main E w)) = trace w ++ EvQuery :: t /\
    existsb is_get (EvQuery :: t) = false /\
    existsb is_insert (EvQuery :: t) = false.
Proof.
  intros Hday. rewrite main_eq, Hday. cbn [Weekday_eqb].
  split; [reflexivity|].
  destruct (main_notify_trace E w) as (t & Ht & Ft).
  exists t. split; [exact Ht|].
  cbn [existsb is_get is_insert orb].
  apply notify_events_no_fetch, Ft.
Qed.

Lemma friday_skips_fetch_witness :
  main (Examples.env Friday (GetResponse 200 (Some Examples.good_page)) 200)
       (Examples.start Examples.five) =
  main_notify (Examples.env Friday (GetResponse 200 (Some Examples.good_page)) 200)
       (Examples.start Examples.five).
Proof.
  apply (friday_skips_fetch
           (Examples.env Friday (GetResponse 200 (Some Examples.good_page)) 200)
           (Examples.start Examples.five)).
  reflexivity.
Defined.

(** C6, on the code.  A Friday run on a table with two unread rows, with
    a webhook and a storage that work: no GET and no INSERT, as the claim
    says, but the loop over the unread articles is not executed; the run
    panics at [urls[:3]] right after the query, no url is posted and both
    rows stay unread. *)
Theorem friday_two_unread_rows_not_notified :
  let E := Examples.env Friday (GetResponse 200 (Some Examples.good_page)) 200 in
  let w := Examples.start Examples.two_unread in
  now_weekday E = Friday /\
  select_unread_urls (db w) =
    ["https://blog.example/a"; "https://blog.example/b"] /\
  main E w = (Exit Panic, mkWorld Examples.two_unread [EvQuery] 0 1) /\
  post_texts (trace (snd (main E w))) = [] /\
  select_unread_urls (db (snd (main E w))) = select_unread_urls (db w).
Proof.
  cbn zeta. repeat split; vm_compute; reflexivity.
Qed.

(** C7.  Once a notify-and-mark cycle for a url has completed, the unread
    query does not answer with that url, neither right away nor after any
    further cycles of the loop. *)
Theorem marked_url_not_selected_again E u w w1 w2 :
  notifySlack E u w = (Ret None, w1) ->
  markAsRead E u w1 = (Ret None, w2) ->
  ~ In u (select_unread_urls (db w2)) /\
  forall rest w3 urls err w4,
    snd (notify_each E rest w2) = w3 ->
    Query_unread E w3 = (Ret (urls, err), w4) ->
    ~ In u urls.
Proof.
  intros Hn Hm.
  destruct (markAsRead_cases _ _ _ _ _ Hm) as (_ & _ & [[_ Hd]|[Ho _]]);
    [|discriminate].
  assert (all_read u (db w2)) as Hall
    by (rewrite Hd; apply update_read_all_read).
  split; [apply all_read_not_selected, Hall|].
  intros rest w3 urls err w4 Hloop Hq.
  destruct (notify_each E rest w2) as [o w3'] eqn:Hl. cbn [snd] in Hloop.
  subst w3'.
  destruct (notify_each_effect _ _ _ _ _ Hl) as (marked & _ & Hd3 & _).
  revert Hq. unfold Query_unread. unfold_prog.
  destruct (db_fault E (dbcalls w3)); cbn [fst snd db trace posts dbcalls];
    intros [= <- _ _]; [intros []|].
  apply all_read_not_selected. rewrite Hd3.
  apply marks_keeps_all_read, Hall.
Qed.

Lemma marked_url_not_selected_again_witness :
  let E := Examples.env Friday (GetError "unused") 200 in
  let u := url (Examples.row "a" "2023-01-01") in
  let w1 := snd (notifySlack E u (Examples.start Examples.five)) in
  let w2 := snd (markAsRead E u w1) in
  ~ In u (select_unread_urls (db w2)).
Proof.
  intros E u w1 w2.
  destruct (marked_url_not_selected_again
              E u (Examples.start Examples.five) w1 w2) as [H _].
  - reflexivity.
  - reflexivity.
  - exact H.
Defined.

(** C8.  When the listing GET is answered with a status other than 200,
    the fetch pass prints the status and returns: it parses nothing, makes
    no database call, leaves the table as it was, does not exit, and the
    run goes on with the notify step. *)
Theorem listing_non200_continues E w status body :
  http_Get E = GetResponse status body ->
  status <> StatusOK ->
  let w1 := mkWorld (db w)
                    (trace w ++ [EvGet (baseURL E); EvPrintStatus status])
                    (posts w) (dbcalls w) in
  fetchAllArticles E w = (Ret tt, w1) /\
  (now_weekday E <> Friday -> main E w = main_notify E w1).
Proof.
  intros Hget Hst w1. pose proof (fetch_non200 E status body w Hget Hst) as Hf.
  split; [exact Hf|].
  intros Hday. rewrite main_eq, Hf.
  destruct (now_weekday E); try reflexivity. contradiction.
Qed.

Lemma listing_non200_continues_witness :
  fst (fetchAllArticles (Examples.env Monday (GetResponse 503 None) 200)
                        (Examples.start Examples.five)) = Ret tt.
Proof.
  pose proof (listing_non200_continues
                (Examples.env Monday (GetResponse 503 None) 200)
                (Examples.start Examples.five) 503 None eq_refl) as H.
  cbn zeta in H. destruct H as [H _]; [discriminate|].
  rewrite H. reflexivity.
Defined.

(** C9, as the code has it.  A successful [markAsRead] sets the flag of
    every row whose url is the given one, however many there are, and
    changes nothing else: the table keeps its length, a row with that url
    becomes the same row with [read] true, and any other row stays as it
    is. *)
Theorem markAsRead_sets_rows_of_url E u w w' :
  markAsRead E u w = (Ret None, w') ->
  List.length (db w') = List.length (db w) /\
  forall i a,
    nth_error (db w) i = Some a ->
    nth_error (db w') i = Some (if String.eqb (url a) u then as_read a else a).
Proof.
  intros Hm.
  destruct (markAsRead_cases _ _ _ _ _ Hm) as (_ & _ & [[_ Hd]|[Ho _]]);
    [|discriminate].
  rewrite Hd. unfold update_read. split; [apply length_map|].
  intros i a Ha. rewrite nth_error_map, Ha. reflexivity.
Qed.

Lemma markAsRead_sets_rows_of_url_witness :
  let E := Examples.env Friday (GetError "unused") 200 in
  let w' := snd (markAsRead E "https://blog.example/a"
                            (Examples.start Examples.five_shared)) in
  nth_error (db w') 3 =
  Some (mkArticle "Title a, revised" "https://blog.example/a" "2023-01-04" true).
Proof.
  intros E w'.
  destruct (markAsRead_sets_rows_of_url
              E "https://blog.example/a"
              (Examples.start Examples.five_shared) w' eq_refl) as [_ H].
  apply (H 3 (mkArticle "Title a, revised" "https://blog.example/a"
                        "2023-01-04" false)).
  reflexivity.
Defined.

(** C9, counterexample.  With two rows for one url, a successful
    [markAsRead] of that url changes two rows, not one. *)
Lemma single_row_update_counterexample :
  let E := Examples.env Friday (GetError "unused") 200 in
  let w := Examples.start Examples.five_shared in
  let r := markAsRead E "https://blog.example/a" w in
  fst r = Ret None /\
  changed_rows (db w) (db (snd r)) = 2 /\
  ~ (changed_rows (db w) (db (snd r)) = 1).
Proof.
  cbn zeta. split; [reflexivity|]. split; [reflexivity|]. discriminate.
Qed.

(** C10.  When the unread query answers with fewer than three urls, the
    slice expression [urls[:3]] panics: the run ends there, with no POST
    sent and no row changed. *)
Theorem short_result_panics E w urls w1 :
  Query_unread E w = (Ret (urls, None), w1) ->
  List.length urls < 3 ->
  main_notify E w = (Exit Panic, w1) /\
  post_texts (trace w1) = post_texts (trace w) /\
  posts w1 = posts w /\
  db w1 = db w.
Proof.
  intros Hq Hlen. rewrite main_notify_eq. cbn zeta.
  revert Hq. unfold Query_unread. unfold_prog.
  destruct (db_fault E (dbcalls w)); cbn [fst snd db trace posts dbcalls];
    [discriminate|].
  intros [= <- <-].
  apply Nat.ltb_lt in Hlen. rewrite Hlen. cbn [db trace posts].
  rewrite post_texts_app. cbn. rewrite app_nil_r. auto.
Qed.

Lemma short_result_panics_witness :
  fst (main_notify (Examples.env Friday (GetError "unused") 200)
                   (Examples.start (firstn 2 Examples.three))) = Exit Panic.
Proof.
  edestruct (short_result_panics
               (Examples.env Friday (GetError "unused") 200)
               (Examples.start (firstn 2 Examples.three))) as [H _].
  - reflexivity.
  - cbn. lia.
  - rewrite H. reflexivity.
Defined.

(** * Further properties of the code *)

(** ** One POST, one update *)

(** X1.  [notifySlack] sends exactly one POST, with the message as its
    text, and touches neither the table nor the database; it returns nil
    whenever the webhook answers, whatever the status, and exits through
    [log.Fatal] exactly when the POST itself fails. *)
Theorem notifySlack_one_post E msg w :
  let r := notifySlack E msg w in
  db (snd r) = db w /\ dbcalls (snd r) = dbcalls w /\
  posts (snd r) = S (posts w) /\
  post_texts (trace (snd r)) = post_texts (trace w) ++ [msg] /\
  (fst r = Ret None <-> exists status, http_Post E (posts w) = PostResponse status) /\
  (fst r = Exit Fatal <-> exists e, http_Post E (posts w) = PostError e).
Proof.
  cbn zeta. rewrite notifySlack_eq.
  destruct (http_Post E (posts w)) as [e|status]; cbn [fst snd db dbcalls posts trace].
  - rewrite !post_texts_app. cbn. rewrite app_nil_r.
    repeat split; try reflexivity; try discriminate.
    + intros [status H]. discriminate.
    + intros _. exists e. reflexivity.
  - assert (post_texts
              (if status =? StatusOK then trace w ++ [EvPost msg]
               else (trace w ++ [EvPost msg]) ++ [EvPrintStatus status]) =
            post_texts (trace w) ++ [msg]) as ->.
    { destruct (status =? StatusOK); rewrite !post_texts_app; cbn;
        rewrite ?app_nil_r; reflexivity. }
    repeat split; try reflexivity; try discriminate.
    + intros _. exists status. reflexivity.
    + intros [e H]. discriminate.
Qed.

(** X2.  [markAsRead] is all or nothing.  When its four database calls
    (begin, prepare, exec, commit) succeed it returns nil and the table is
    the old one with the flag set on the rows of that url; when one of them
    fails the process exits through [log.Fatal] and the committed table is
    the old one.  It never posts. *)
Theorem markAsRead_all_or_nothing E u w :
  let r := markAsRead E u w in
  posts (snd r) = posts w /\
  post_texts (trace (snd r)) = post_texts (trace w) /\
  if calls_succeed E (dbcalls w) 4
  then fst r = Ret None /\ db (snd r) = update_read u (db w) /\
       dbcalls (snd r) = dbcalls w + 4
  else fst r = Exit Fatal /\ db (snd r) = db w.
Proof.
  cbn zeta. rewrite markAsRead_eq. unfold calls_succeed. cbn [seq forallb].
  rewrite Nat.add_0_r, !(Nat.add_comm (dbcalls w)). cbn zeta.
  destruct (db_fault E (dbcalls w));
    [|destruct (db_fault E (1 + dbcalls w));
      [|destruct (db_fault E (2 + dbcalls w));
        [|destruct (db_fault E (3 + dbcalls w))]]];
    cbn [negb andb fst snd db trace posts dbcalls];
    rewrite !post_texts_app; cbn; rewrite ?app_nil_r; auto.
Qed.

(** X3.  A loop that runs to its end posts every url of its list, in
    order, and leaves the table with the flag set on exactly the rows whose
    url is in the list: the result depends on which urls are listed, not on
    their order or repetition. *)
Theorem notify_each_marks_listed_urls E us w w' :
  notify_each E us w = (Ret tt, w') ->
  post_texts (trace w') = post_texts (trace w) ++ us /\
  db w' = map (mark_among us) (db w).
Proof.
  intros H.
  destruct (notify_each_effect _ _ _ _ _ H)
    as (marked & posted & Hd & Hp & _ & _ & Hall).
  destruct (Hall eq_refl) as [-> ->].
  split; [exact Hp|]. rewrite Hd. apply marks_closed_form.
Qed.

Lemma notify_each_marks_listed_urls_witness :
  let E := Examples.env Friday (GetError "unused") 404 in
  let us := ["https://blog.example/e"; "https://blog.example/a";
             "https://blog.example/e"] in
  map read (db (snd (notify_each E us (Examples.start Examples.five)))) =
  [false; true; true; false; false].
Proof.
  intros E us.
  assert (notify_each E us (Examples.start Examples.five) =
          (Ret tt, snd (notify_each E us (Examples.start Examples.five))))
    as Hrun by (vm_compute; reflexivity).
  destruct (notify_each_marks_listed_urls _ _ _ _ Hrun) as [_ H].
  rewrite H. vm_compute. reflexivity.
Defined.

(** X4.  A save pass only appends.  For articles whose dates are in the
    stored form [YYYY-MM-DD], as those [fetchAllArticles] passes are: however
    the pass ends, the committed table is the old table, row for row,
    followed by new rows; every new row is unread and carries the title,
    url and date of one of the articles passed; a pass that does not return
    nil appends nothing; and after a pass that returns nil the pair
    (url, title) of every article passed is in the table. *)
Theorem save_only_appends E articles w :
  Forall (fun a => iso_date (date a)) articles ->
  let r := saveAllArticles E articles w in
  exists added,
    db (snd r) = db w ++ added /\
    Forall (fun row => exists a, In a articles /\ row = row_of a) added /\
    (fst r <> Ret None -> added = []) /\
    (fst r = Ret None ->
     forall a, In a articles -> violates_unique a (db (snd r)) = true).
Proof.
  intros _. cbn zeta.
  destruct (saveAllArticles_cases E articles w) as [[Ho Hd]|[Ho Hd]];
    rewrite Ho, Hd.
  - destruct (insert_rows_appends articles (db w)) as (added & Heq & Hall).
    exists added. rewrite Heq. split; [reflexivity|]. split; [exact Hall|].
    split; [congruence|]. intros _ a Ha. rewrite <- Heq.
    apply insert_rows_all_present, Ha.
  - exists []. rewrite app_nil_r. split; [reflexivity|].
    split; [constructor|]. split; [reflexivity|discriminate].
Qed.

Lemma save_only_appends_witness :
  let E := Examples.env Monday (GetError "unused") 200 in
  let extra := mkArticle "Title f" "https://blog.example/f" "2023-01-06" true in
  let r := saveAllArticles E [Examples.row "a" "2031-12-31"; extra]
                           (Examples.start Examples.three) in
  violates_unique extra (db (snd r)) = true.
Proof.
  intros E extra r.
  destruct (save_only_appends
              E [Examples.row "a" "2031-12-31"; extra]
              (Examples.start Examples.three))
    as (added & _ & _ & _ & Hpresent).
  - repeat constructor; cbn [date Examples.row extra];
      [iso 2031 12 31|iso 2023 1 6].
  - apply Hpresent.
    + vm_compute. reflexivity.
    + right. left. reflexivity.
Defined.

(** X5.  Saving is idempotent.  When no database call fails, a second save
    pass with the same articles returns nil and leaves the table exactly as
    the first pass left it. *)
Theorem save_twice_is_save_once E articles w :
  (forall n, db_fault E n = false) ->
  let w1 := snd (saveAllArticles E articles w) in
  fst (saveAllArticles E articles w1) = Ret None /\
  db (snd (saveAllArticles E articles w1)) = db w1.
Proof.
  intros Hdb w1.
  pose proof (saveAllArticles_steps E articles w) as H1.
  pose proof (saveAllArticles_steps E articles w1) as H2.
  rewrite calls_succeed_all in H1, H2 by exact Hdb.
  rewrite H2. cbn [fst snd db]. split; [reflexivity|].
  subst w1. rewrite H1. cbn [snd db].
  apply insert_rows_present. intros a Ha.
  apply insert_rows_all_present, Ha.
Qed.

Lemma save_twice_is_save_once_witness :
  let E := Examples.env Monday (GetError "unused") 200 in
  let w1 := snd (saveAllArticles E Examples.five (Examples.start Examples.three)) in
  db (snd (saveAllArticles E Examples.five w1)) = db w1.
Proof.
  intros E w1.
  apply (save_twice_is_save_once E Examples.five (Examples.start Examples.three)).
  intros n. reflexivity.
Defined.

(** X6.  A fetch pass that goes through.  When the listing answers 200
    with a page all of whose entries have a date that parses and an href
    that joins onto the base URL, and the database calls of the save pass
    succeed, [fetchAllArticles] returns after one GET and one INSERT
    execution per entry, in page order, and the table is the old table with
    the new rows appended.  The article of an entry has the entry's title,
    the url joined from the base URL and the href without its first
    "/articles/", the date converted to dashes, and is unread. *)
Theorem fetch_stores_parsed_items E w doc articles :
  http_Get E = GetResponse StatusOK (Some doc) ->
  articles_of_items E (List.concat doc) = Some articles ->
  calls_succeed E (dbcalls w) (List.length articles + 3) = true ->
  fetchAllArticles E w =
    (Ret tt,
     mkWorld (insert_rows articles (db w))
             (trace w ++ EvGet (baseURL E)
                :: map (fun a => EvExecInsert (row_of a)) articles)
             (posts w) (dbcalls w + (List.length articles + 3))) /\
  List.length articles = List.length (List.concat doc) /\
  forall i it a,
    nth_error (List.concat doc) i = Some it ->
    nth_error articles i = Some a ->
    title a = li_title it /\
    url_JoinPath E (baseURL E)
      (GoStrings.RemoveFirst (li_href it) "/articles/") = Some (url a) /\
    convertDate (li_date it) = Some (date a) /\
    read a = false.
Proof.
  intros Hget Hitems Hcalls. split; [|split].
  - rewrite fetchAllArticles_eq. cbn zeta. rewrite Hget, Hitems. cbn [Nat.eqb StatusOK].
    change (200 =? 200) with true. cbn iota.
    match goal with |- context [saveAllArticles E articles ?w0] =>
      pose proof (saveAllArticles_steps E articles w0) as Hs
    end.
    cbn [dbcalls db trace posts] in Hs. rewrite Hcalls in Hs. rewrite Hs.
    rewrite <- app_assoc. reflexivity.
  - clear Hget Hcalls. revert articles Hitems.
    induction (List.concat doc) as [|it rest IH]; intros articles Hitems.
    + injection Hitems as <-. reflexivity.
    + cbn [articles_of_items] in Hitems.
      destruct (article_of_item E it); [|discriminate].
      destruct (articles_of_items E rest) as [l|]; [|discriminate].
      injection Hitems as <-. cbn [List.length]. f_equal. apply IH. reflexivity.
  - clear Hget Hcalls. revert articles Hitems.
    induction (List.concat doc) as [|it' rest IH]; intros articles Hitems i it a Hi Ha.
    + destruct i; discriminate.
    + cbn [articles_of_items] in Hitems.
      destruct (article_of_item E it') as [a'|] eqn:Hit; [|discriminate].
      destruct (articles_of_items E rest) as [l|]; [|discriminate].
      injection Hitems as <-.
      destruct i as [|i]; cbn [nth_error] in Hi, Ha.
      * injection Hi as ->. injection Ha as ->.
        unfold article_of_item in Hit. unfold convertDate.
        destruct (GoTime.Parse_2006_01_02 (li_date it)); [|discriminate].
        destruct (url_JoinPath E _ _); [|discriminate].
        injection Hit as <-. cbn. auto.
      * eapply IH; [reflexivity|eassumption|eassumption].
Qed.

Lemma fetch_stores_parsed_items_witness :
  let E := Examples.env Monday (GetResponse 200 (Some Examples.good_page)) 200 in
  db (snd (fetchAllArticles E (Examples.start []))) =
  [mkArticle "Foo" "https://blog.example/foo" "2023-06-20" false].
Proof.
  intros E.
  destruct (fetch_stores_parsed_items
              E (Examples.start []) Examples.good_page
              [mkArticle "Foo" "https://blog.example/foo" "2023-06-20" false])
    as [H _].
  - reflexivity.
  - vm_compute. reflexivity.
  - vm_compute. reflexivity.
  - rewrite H. vm_compute. reflexivity.
Defined.

(** X7.  A fetch pass that does not go through stores nothing.
    [fetchAllArticles] never posts to the webhook and never panics: it
    returns or exits through [log.Fatal]; when it exits the committed table
    is the one it found; and on a day other than Friday [main] then ends
    right there, without running the unread query. *)
Theorem fetch_fatal_stores_nothing E w :
  let r := fetchAllArticles E w in
  posts (snd r) = posts w /\
  post_texts (trace (snd r)) = post_texts (trace w) /\
  (fst r = Ret tt \/ fst r = Exit Fatal) /\
  (fst r = Exit Fatal ->
   db (snd r) = db w /\ (now_weekday E <> Friday -> main E w = r)).
Proof.
  cbn zeta.
  assert (forall r, fetchAllArticles E w = r ->
                    fst r = Exit Fatal -> now_weekday E <> Friday ->
                    main E w = r) as Hmain.
  { intros [o w1] Hr Ho Hday. cbn in Ho. subst o. rewrite main_eq, Hr.
    destruct (now_weekday E); try reflexivity. contradiction. }
  specialize (Hmain _ eq_refl).
  revert Hmain. rewrite fetchAllArticles_eq. cbn zeta.
  assert (forall t, post_texts ((trace w ++ [EvGet (baseURL E)]) ++ t) =
                    post_texts (trace w) ++ post_texts t) as Ht
    by (intros t; rewrite !post_texts_app, app_nil_r; reflexivity).
  assert (post_texts (trace w) ++ [] = post_texts (trace w)) as Hnil
    by apply app_nil_r.
  destruct (http_Get E) as [e|status body];
    [|destruct (status =? StatusOK);
      [destruct body as [doc|];
       [destruct (articles_of_items E (List.concat doc)) as [articles|]|]|]].
  1,3,4,5: intros Hmain; cbn [fst snd db posts trace]; rewrite Ht;
    (split; [reflexivity|]); (split; [exact Hnil|]); (split; [auto|]);
    intros Hf; try discriminate Hf;
    (split; [reflexivity|]); intros Hday; apply Hmain; assumption.
  match goal with |- context [saveAllArticles E articles ?w0] =>
    pose proof (saveAllArticles_steps E articles w0) as Hs;
    destruct (calls_succeed E (dbcalls w0) (List.length articles + 3))
  end.
  - rewrite Hs. intros _. cbn [fst snd posts trace db].
    rewrite post_texts_app.
    assert (post_texts (map (fun a => EvExecInsert (row_of a)) articles) = [])
      as -> by (clear; induction articles; [reflexivity|assumption]).
    rewrite app_nil_r, post_texts_app. cbn [post_texts flat_map].
    split; [reflexivity|]. split; [exact Hnil|]. split; [auto|]. discriminate.
  - destruct Hs as (Ho & Hd & Hp & Hq).
    destruct (saveAllArticles E articles _) as [o w2]. cbn [fst snd] in *.
    subst o. cbn [fst snd]. cbn [db posts trace] in Hd, Hp, Hq.
    intros Hmain. rewrite Hd, Hp, Hq, post_texts_app.
    split; [reflexivity|]. split; [exact Hnil|]. split; [auto|].
    intros _. split; [reflexivity|]. intros Hday. apply Hmain; auto.
Qed.

Lemma fetch_fatal_stores_nothing_witness :
  let E := Examples.env Monday (GetError "connection refused") 200 in
  main E (Examples.start Examples.five) =
  (Exit Fatal,
   mkWorld Examples.five [EvGet "https://blog.example"; EvFatal] 0 0).
Proof.
  intros E.
  destruct (fetch_fatal_stores_nothing E (Examples.start Examples.five))
    as (_ & _ & _ & H).
  destruct H as [_ H]; [reflexivity|].
  rewrite H; [reflexivity|discriminate].
Defined.

(** X8.  A run never deletes or rewrites a row.  Whatever the environment
    does and however the run ends, every row of the table the run started
    with is still at its position afterwards with the same title, url and
    date, and a row that was read is still read. *)
Theorem run_keeps_rows E w : keeps_rows (db w) (db (snd (main E w))).
Proof.
  destruct (main_db_effect E w) as (articles & done & ->).
  destruct (insert_rows_appends articles (db w)) as (added & -> & _).
  eapply keeps_rows_trans; [apply keeps_rows_app|apply keeps_rows_marks].
Qed.

Lemma run_keeps_rows_witness :
  let E := Examples.env Monday (GetResponse 200 (Some Examples.good_page)) 500 in
  exists a',
    nth_error (db (snd (main E (Examples.start Examples.three)))) 1 = Some a' /\
    keeps_row (Examples.row "b" "2023-01-02") a'.
Proof.
  intros E.
  apply (run_keeps_rows E (Examples.start Examples.three) 1).
  reflexivity.
Defined.

(** X9.  A run keeps the pair (url, title) unique: from a table in which
    no two rows agree on url and title, [main] leaves such a table,
    whatever the environment does and however the run ends. *)
Theorem run_keeps_pairs_unique E w :
  unique_keys (db w) -> unique_keys (db (snd (main E w))).
Proof.
  intros H. destruct (main_db_effect E w) as (articles & done & ->).
  apply unique_keys_marks, insert_rows_unique, H.
Qed.

Lemma run_keeps_pairs_unique_witness :
  unique_keys
    (db (snd (main (Examples.env Monday
                      (GetResponse 200 (Some Examples.good_page)) 200)
                   (Examples.start Examples.five_shared)))).
Proof.
  apply run_keeps_pairs_unique. vm_compute. tauto.
Defined.



(** X11.  The loop stops at the first failure.  When the POST for the
    first url fails, or the webhook answers but one of the four database
    calls of [markAsRead] fails, the process exits through [log.Fatal]: the
    POST for that url has been sent, no row has changed, so the unread
    query still answers as before, and the urls after it are not posted. *)
Theorem loop_stops_at_first_failure E u rest w :
  (exists e, http_Post E (posts w) = PostError e) \/
  calls_succeed E (dbcalls w) 4 = false ->
  let r := notify_each E (u :: rest) w in
  fst r = Exit Fatal /\
  db (snd r) = db w /\
  post_texts (trace (snd r)) = post_texts (trace w) ++ [u] /\
  select_unread_urls (db (snd r)) = select_unread_urls (db w).
Proof.
  intros H. cbn zeta.
  assert (fst (notify_each E (u :: rest) w) = Exit Fatal /\
          db (snd (notify_each E (u :: rest) w)) = db w /\
          post_texts (trace (snd (notify_each E (u :: rest) w))) =
            post_texts (trace w) ++ [u]) as (Ho & Hd & Hp).
  { rewrite notify_each_cons.
    destruct (notifySlack E u w) as [o1 w1] eqn:Hn.
    destruct (notifySlack_cases _ _ _ _ _ Hn) as (Ho1 & Hd1 & Hp1 & _ & Hc1).
    rewrite notifySlack_eq in Hn.
    destruct (http_Post E (posts w)) as [e|status] eqn:Hpost.
    - injection Hn as <- <-. cbn [fst snd db trace].
      cbn [db trace] in Hp1. auto.
    - destruct H as [[e He]|Hcalls]; [discriminate|].
      injection Hn as <- Hw1.
      rewrite <- Hc1 in Hcalls.
      destruct (markAsRead_fatal E u w1 Hcalls) as (Ho2 & Hd2 & Hp2).
      destruct (markAsRead E u w1) as [o2 w2]. cbn [fst snd] in *.
      subst o2. cbn [fst snd]. rewrite Hd2, Hp2, Hd1, Hp1. auto. }
  rewrite Hd. auto.
Qed.

Lemma loop_stops_at_first_failure_witness :
  let E := Examples.env_storage_down Friday (GetError "unused") 200 in
  let r := notify_each E ["https://blog.example/a"; "https://blog.example/b"]
                       (Examples.start Examples.five) in
  fst r = Exit Fatal /\
  post_texts (trace (snd r)) = ["https://blog.example/a"].
Proof.
  intros E r.
  destruct (loop_stops_at_first_failure
              E "https://blog.example/a" ["https://blog.example/b"]
              (Examples.start Examples.five))
    as (Ho & _ & Hp & _).
  - right. reflexivity.
  - split; [exact Ho|exact Hp].
Defined.

(** X12.  A run in which nothing fails.  When at least three rows are
    unread and the unread rows have dates in the stored form [YYYY-MM-DD], no database call fails and the webhook answers every POST,
    with whatever status, the notify step ends normally after posting the
    urls of the first three unread rows in date order; the flag is then set
    on exactly the rows with one of these urls, and the rows left unread
    are the unread rows with another url. *)
Theorem working_run_posts_first_three E w :
  Forall (fun a => iso_date (date a)) (filter unread (db w)) ->
  (forall n, db_fault E n = false) ->
  (forall n, exists status, http_Post E n = PostResponse status) ->
  3 <= List.length (select_unread_urls (db w)) ->
  let us := firstn 3 (select_unread_urls (db w)) in
  let w' := snd (main_notify E w) in
  fst (main_notify E w) = Ret tt /\
  post_texts (trace w') = post_texts (trace w) ++ us /\
  db w' = map (mark_among us) (db w) /\
  filter unread (db w') = filter (not_among us) (filter unread (db w)).
Proof.
  intros _ Hdb Hpost Hlen us w'. subst w'.
  rewrite main_notify_eq. cbn zeta. rewrite Hdb.
  apply Nat.ltb_ge in Hlen. rewrite Hlen. fold us.
  match goal with |- context [notify_each E us ?w1] =>
    pose proof (notify_each_completes E us Hdb Hpost w1) as Hret;
    destruct (notify_each E us w1) as [o w2] eqn:Hloop
  end.
  cbn [fst] in Hret. subst o.
  destruct (notify_each_effect _ _ _ _ _ Hloop)
    as (marked & posted & Hd & Hp & _ & _ & Hall).
  destruct (Hall eq_refl) as [-> ->]. cbn [db trace] in Hd, Hp.
  cbn [fst snd db trace].
  rewrite post_texts_app, Hp, post_texts_app. cbn [post_texts flat_map].
  rewrite !app_nil_r, Hd.
  split; [reflexivity|]. split; [reflexivity|].
  split; [apply marks_closed_form|apply filter_unread_marks].
Qed.

Lemma working_run_posts_first_three_witness :
  let E := Examples.env Friday (GetError "unused") 302 in
  let w := Examples.start Examples.five_shared in
  post_texts (trace (snd (main_notify E w))) =
  ["https://blog.example/a"; "https://blog.example/b"; "https://blog.example/c"].
Proof.
  intros E w.
  destruct (working_run_posts_first_three E w) as (_ & H & _).
  - exact five_shared_iso.
  - intros n. reflexivity.
  - intros n. exists 302. reflexivity.
  - vm_compute. lia.
  - rewrite H. vm_compute. reflexivity.
Defined.

(** X13.  The href loses its first "/articles/" and nothing else.
    [strings.Replace(href, old, "", 1)] returns what follows [old] when the
    href starts with it, the href itself when [old] does not occur in it,
    and in every case where [old] occurs a string shorter by exactly the
    length of [old]: one occurrence is removed, also when it is not at the
    start and also when there are several. *)
Theorem replace_removes_first_occurrence old :
  (forall s, GoStrings.RemoveFirst (old ++ s) old = s) /\
  (forall s, GoStrings.Contains s old = false ->
             GoStrings.RemoveFirst s old = s) /\
  (forall s, GoStrings.Contains s old = true ->
             String.length (GoStrings.RemoveFirst s old) + String.length old =
             String.length s).
Proof.
  split; [|split].
  - intros s. destruct old as [|c old'] eqn:Hold.
    + destruct s; reflexivity.
    + rewrite <- Hold.
      assert (GoStrings.RemoveFirst (old ++ s) old =
              if GoStrings.hasPrefix old (old ++ s)
              then GoStrings.dropn (String.length old) (old ++ s)
              else match (old ++ s)%string with
                   | EmptyString => EmptyString
                   | String c0 s' => String c0 (GoStrings.RemoveFirst s' old)
                   end) as ->
        by (destruct (old ++ s)%string; reflexivity).
      rewrite hasPrefix_app. apply dropn_app.
  - induction s as [|c s IH]; cbn [GoStrings.Contains GoStrings.RemoveFirst];
      intros H; apply orb_false_elim in H; destruct H as [Hp Ht];
      rewrite Hp; [reflexivity|].
    rewrite IH by exact Ht. reflexivity.
  - induction s as [|c s IH]; cbn [GoStrings.Contains GoStrings.RemoveFirst];
      intros H.
    + rewrite orb_false_r in H. rewrite H.
      apply dropn_length, hasPrefix_length, H.
    + destruct (GoStrings.hasPrefix old (String c s)) eqn:Hp.
      * apply dropn_length, hasPrefix_length, Hp.
      * cbn [orb] in H. cbn [String.length]. rewrite <- (IH H). lia.
Qed.

Lemma replace_removes_first_occurrence_witness :
  GoStrings.RemoveFirst "/blog/articles/2023/articles/foo" "/articles/" =
  "/blog2023/articles/foo" /\
  String.length (GoStrings.RemoveFirst "/blog/articles/2023/articles/foo" "/articles/")
    + 10 = 32.
Proof.
  destruct (replace_removes_first_occurrence "/articles/") as (_ & _ & H).
  split; [reflexivity|].
  apply (H "/blog/articles/2023/articles/foo"). reflexivity.
Defined.

(** X14.  The stored date texts sort by day.  For two dates of the
    calendar, the text [YYYY-MM-DD] of the first is below or equal to the
    text of the second in the byte order of [ORDER BY date] exactly when the
    first date is not after the second. *)
Theorem stored_dates_sort_by_day y m d y' m' d' :
  GoTime.validDate y m d -> GoTime.validDate y' m' d' ->
  String.leb (GoTime.dashed y m d) (GoTime.dashed y' m' d') =
  (date_number y m d <=? date_number y' m' d').
Proof. apply dashed_leb_date_number. Qed.

Lemma stored_dates_sort_by_day_witness :
  String.leb "2023-12-31" "2024-01-01" = true /\
  String.leb "2024-02-29" "2024-02-03" = false.
Proof.
  split.
  - change (String.leb (GoTime.dashed 2023 12 31) (GoTime.dashed 2024 1 1) = true).
    rewrite stored_dates_sort_by_day.
    + apply Nat.leb_le. unfold date_number. lia.
    + unfold GoTime.validDate. cbn. lia.
    + unfold GoTime.validDate. cbn. lia.
  - change (String.leb (GoTime.dashed 2024 2 29) (GoTime.dashed 2024 2 3) = false).
    rewrite stored_dates_sort_by_day.
    + apply Nat.leb_gt. unfold date_number. lia.
    + unfold GoTime.validDate. cbn. lia.
    + unfold GoTime.validDate. cbn. lia.
Defined.



(** X16.  An article seen for the first time is unread in the same run.
    On a day other than Friday, when the fetch pass goes through, the
    notify step of the same run starts from the table with the new rows,
    and the url of every fetched article whose pair (url, title) was not
    in the table before is among the urls its unread query selects
    from. *)
Theorem new_article_is_eligible_same_run E w doc articles :
  now_weekday E <> Friday ->
  http_Get E = GetResponse StatusOK (Some doc) ->
  articles_of_items E (List.concat doc) = Some articles ->
  calls_succeed E (dbcalls w) (List.length articles + 3) = true ->
  exists w1,
    fetchAllArticles E w = (Ret tt, w1) /\
    main E w = main_notify E w1 /\
    db w1 = insert_rows articles (db w) /\
    forall a, In a articles -> violates_unique a (db w) = false ->
              In (url a) (select_unread_urls (db w1)).
Proof.
  intros Hday Hget Hitems Hcalls.
  assert (fetchAllArticles E w =
          (Ret tt,
           mkWorld (insert_rows articles (db w))
                   ((trace w ++ [EvGet (baseURL E)]) ++
                    map (fun a => EvExecInsert (row_of a)) articles)
                   (posts w) (dbcalls w + (List.length articles + 3)))) as Hf.
  { rewrite fetchAllArticles_eq. cbn zeta. rewrite Hget, Hitems.
    change (StatusOK =? StatusOK) with true. cbn iota.
    match goal with |- context [saveAllArticles E articles ?w0] =>
      pose proof (saveAllArticles_steps E articles w0) as Hs
    end.
    cbn [dbcalls db trace posts] in Hs. rewrite Hcalls in Hs. rewrite Hs.
    reflexivity. }
  eexists. split; [exact Hf|]. cbn [db].
  split; [|split; [reflexivity|]].
  - rewrite main_eq, Hf. destruct (now_weekday E); try reflexivity.
    contradiction.
  - intros a Ha Hnew.
    pose proof (insert_rows_all_present articles (db w) a Ha) as Hp.
    destruct (insert_rows_appends articles (db w)) as (added & Heq & Hall).
    rewrite Heq in *. rewrite violates_unique_app, Hnew in Hp. cbn [orb] in Hp.
    unfold violates_unique in Hp. apply existsb_exists in Hp.
    destruct Hp as (row & Hrow & Hkey).
    rewrite Forall_forall in Hall. destruct (Hall row Hrow) as (b & _ & ->).
    apply in_select_unread_urls. exists (row_of b).
    split; [apply in_or_app; right; exact Hrow|].
    split; [reflexivity|].
    apply key_eqb_iff in Hkey. destruct Hkey as [Hu _]. symmetry. exact Hu.
Qed.

Lemma new_article_is_eligible_same_run_witness :
  let E := Examples.env Monday (GetResponse 200 (Some Examples.good_page)) 200 in
  exists w1,
    fetchAllArticles E (Examples.start Examples.three) = (Ret tt, w1) /\
    In "https://blog.example/foo" (select_unread_urls (db w1)).
Proof.
  intros E.
  destruct (new_article_is_eligible_same_run
              E (Examples.start Examples.three) Examples.good_page
              [mkArticle "Foo" "https://blog.example/foo" "2023-06-20" false])
    as (w1 & Hf & _ & _ & Hin).
  - discriminate.
  - reflexivity.
  - vm_compute. reflexivity.
  - vm_compute. reflexivity.
  - exists w1. split; [exact Hf|].
    apply (Hin (mkArticle "Foo" "https://blog.example/foo" "2023-06-20" false)).
    + left. reflexivity.
    + vm_compute. reflexivity.
Defined.
